(** * Preview traffic composition: a shallow embedding of create-preview-sample

    The development follows the two Go files of the tool:
    - [main.go]: the naming codec ([previewName], [getVersionFromPreview],
      [previewVirtualServiceName], [previewGatewayVirtualServiceName]) and the
      two client constructors;
    - the [create] subcommand: flag declaration ([cmdCreate_New]), the four
      stages ([createService], [createDeploy], [createSidecarVirtualService],
      [createGatewayVirtualService]) and their driver ([cmdCreate_RunE]).

    Go strings are byte strings and are modelled by [string]; Go maps are
    [option (gmap string string)], [None] being the nil map; remote registries
    are an explicit [Cluster] state threaded through the stages, and the
    answers of the outside world that the code cannot influence (credentials,
    transport failures) are an [Env] record. *)

From Stdlib Require Import ZArith Lia Ascii.
From stdpp Require Import base option list strings gmap sorting.

Local Open Scope Z_scope.

(** ** Outcomes of a Go call *)

Inductive Error : Type :=
  | SelectorNotFound (service : string)   (* fmt.Errorf("not found selector from service %s", name) *)
  | AlreadyExists (name : string)         (* registry: an object of that name exists *)
  | Remote (msg : string)                 (* any other failure reported by a collaborator *)
  | Wrapped (context : string) (e : Error)   (* fmt.Errorf("...: %w", err) *)
  | MissingFlags (names : list string)    (* cobra: required flag(s) not set *)
  | UnknownFlag (name : string).          (* pflag: unknown flag *)

Inductive PanicKind : Type :=
  | NilPointerDereference     (* invalid memory address or nil pointer dereference *)
  | NilMapAssignment          (* assignment to entry in nil map *)
  | IndexOutOfRange.          (* index or slice bounds out of range *)

(** [Ok], [Err] and [Panic] are what Go does; [OutOfModel] marks a run that
    enters a branch of the Go standard library this development does not
    embed (see [GoStrings.SplitN] and [Cobra.parseFlags]). *)
Inductive Result (A : Type) : Type :=
  | Ok (a : A)
  | Err (e : Error)
  | Panic (p : PanicKind)
  | OutOfModel.

Arguments Ok {A} a.
Arguments Err {A} e.
Arguments Panic {A} p.
Arguments OutOfModel {A}.

#[global] Instance Error_eq_dec : EqDecision Error.
Proof. solve_decision. Defined.

Definition rbind {A B} (r : Result A) (k : A → Result B) : Result B :=
  match r with
  | Ok a => k a
  | Err e => Err e
  | Panic p => Panic p
  | OutOfModel => OutOfModel
  end.

Notation "'let?' x := r 'in' k" := (rbind r (fun x => k))
  (at level 10, x pattern, r at level 100, k at level 200).

(** ** The part of package [strings] the tool uses *)

Module GoStrings.

Definition len (s : string) : Z := Z.of_nat (String.length s).

(** [s[:n]] and [s[n:]] for [0 <= n <= len s]; the callers below establish
    the bounds before slicing. *)
Fixpoint take (n : nat) (s : string) : string :=
  match n, s with
  | S k, String c s' => String c (take k s')
  | _, _ => EmptyString
  end.

Fixpoint drop (n : nat) (s : string) : string :=
  match n, s with
  | S k, String _ s' => drop k s'
  | _, _ => s
  end.

(** [s[n:]] as Go evaluates it: a run-time panic when [n] exceeds [len s]. *)
Definition sliceFrom (s : string) (n : Z) : Result string :=
  if (0 <=? n) && (n <=? len s) then Ok (drop (Z.to_nat n) s)
  else Panic IndexOutOfRange.

(** [strings.HasPrefix(s, prefix)]:
    [len(s) >= len(prefix) && s[:len(prefix)] == prefix]. *)
Fixpoint HasPrefix (s prefix : string) {struct prefix} : bool :=
  match prefix, s with
  | EmptyString, _ => true
  | String c p', String d s' => bool_decide (c = d) && HasPrefix s' p'
  | String _ _, EmptyString => false
  end.

(** [strings.Index(s, substr)]: index of the first instance, or [-1]. *)
Fixpoint Index (s substr : string) : Z :=
  if HasPrefix s substr then 0
  else match s with
       | EmptyString => -1
       | String _ s' => let m := Index s' substr in
                        if m <? 0 then -1 else m + 1
       end.

(** [strings.Contains(s, substr)]: [Index(s, substr) >= 0]. *)
Definition Contains (s substr : string) : bool := 0 <=? Index s substr.

(** The loop of [genSplit]: at most [k] cuts at the first separator. *)
Fixpoint splitLoop (k : nat) (s sep : string) : list string :=
  match k with
  | O => [s]
  | S k' =>
      let m := Index s sep in
      if m <? 0 then [s]
      else take (Z.to_nat m) s
             :: splitLoop k' (drop (Z.to_nat (m + len sep)) s) sep
  end.

(** [strings.SplitN(s, sep, n)] = [genSplit(s, sep, 0, n)].  [n == 0] gives
    nil; a negative [n] means no limit, and a limit above [len(s)+1] is
    clamped, so [len s] cuts always suffice.  The empty separator makes
    [genSplit] explode [s] into UTF-8 sequences; that branch is not
    embedded. *)
Definition SplitN (s sep : string) (n : Z) : Result (list string) :=
  if n =? 0 then Ok []
  else if bool_decide (sep = EmptyString) then OutOfModel
  else
    let n' := if (n <? 0) || (len s + 1 <? n) then len s + 1 else n in
    Ok (splitLoop (Z.to_nat (n' - 1)) s sep).

(** [a[i]] on a slice of strings. *)
Definition index (a : list string) (i : nat) : Result string :=
  match a !! i with
  | Some x => Ok x
  | None => Panic IndexOutOfRange
  end.

End GoStrings.

(** ** main.go: the naming codec *)

Definition previewPrefixName : string := "pr".

(** [fmt.Sprintf("%s%s-%s", previewPrefixName, version, origin)] *)
Definition previewName (origin version : string) : string :=
  previewPrefixName +:+ version +:+ "-" +:+ origin.

Definition getVersionFromPreview (s : string) : Result string :=
  if negb (GoStrings.HasPrefix s previewPrefixName) then Ok s
  else
    let? rest := GoStrings.sliceFrom s (GoStrings.len previewPrefixName) in
    let? sp := GoStrings.SplitN rest "-" 2 in
    GoStrings.index sp 0.

(** [fmt.Sprintf("%s%s-virtual-service", previewPrefixName, originSvc)] *)
Definition previewVirtualServiceName (originSvc : string) : string :=
  previewPrefixName +:+ originSvc +:+ "-virtual-service".

(** [fmt.Sprintf("%s-gateway-virtual-service", previewName(originSvc, version))] *)
Definition previewGatewayVirtualServiceName (originSvc version : string) : string :=
  previewName originSvc version +:+ "-gateway-virtual-service".


(** ** The part of package [sort] the tool uses

    [sort.Slice(x, less)] runs [pdqsort_func] over the index range
    [0, len(x)) with the caller's [less] and an in-place swapper (Go 1.19 and
    later).  For at most [maxInsertion] elements [pdqsort_func] is exactly
    [insertionSort_func].  (The quicksort of older toolchains also ends in
    [insertionSort_func], and is that alone up to six elements.)  For longer
    slices [pdqsort_func] partitions; that path is not embedded step by
    step.  Whatever it decides, it touches the slice through [data.Swap]
    only, so its effect is the slice after some sequence of swaps: the
    sequence [longSwaps], which the caller of this model supplies and about
    which nothing is assumed.  [less] receives indices and reads the slice
    as it currently is, because the closure the tool passes captures the
    very slice being sorted. *)

Module GoSort.
Section Slice.
Context {A : Type}.
Variable less : list A → nat → nat → bool.
Variable longSwaps : list (nat * nat).

(** [data.Swap(i, j)], for indices within bounds. *)
Definition swap (xs : list A) (i j : nat) : list A :=
  match xs !! i, xs !! j with
  | Some a, Some b => <[i := b]> (<[j := a]> xs)
  | _, _ => xs
  end.

(** [for j := i; j > a && data.Less(j, j-1); j-- { data.Swap(j, j-1) }] *)
Fixpoint insertionInner (a j : nat) (xs : list A) : list A :=
  match j with
  | O => xs
  | S j' =>
      if bool_decide (a < j)%nat && less xs j j'
      then insertionInner a j' (swap xs j j')
      else xs
  end.

(** [for i := a + 1; i < b; i++ { ... }] *)
Definition insertionSort_func (a b : nat) (xs : list A) : list A :=
  foldl (λ ys i, insertionInner a i ys) xs (seq (S a) (b - S a)).

Definition maxInsertion : nat := 12.

Definition Slice (xs : list A) : Result (list A) :=
  if bool_decide (length xs ≤ maxInsertion)%nat
  then Ok (insertionSort_func 0 (length xs) xs)
  else Ok (foldl (λ ys ij, swap ys ij.1 ij.2) xs longSwaps).
End Slice.
End GoSort.

(** ** Kubernetes and Istio objects, as far as the tool reads or writes them *)

(** A Go [map[string]string]; [None] is the nil map. *)
Abbreviation GoMap := (option (gmap string string)).

(** [v, ok := m[k]]: reading a nil map finds nothing. *)
Definition mapLookup (m : GoMap) (k : string) : option string :=
  match m with
  | Some g => g !! k
  | None => None
  end.

(** [m[k] = v]: writing to a nil map panics. *)
Definition mapAssign (m : GoMap) (k v : string) : Result GoMap :=
  match m with
  | Some g => Ok (Some (<[k := v]> g))
  | None => Panic NilMapAssignment
  end.

(** [for k, v := range m]: the entries in the order this run visits them
    (Go leaves the order unspecified; no statement below depends on it). *)
Definition mapRange (m : GoMap) : list (string * string) :=
  match m with
  | Some g => map_to_list g
  | None => []
  end.

(** [corev1.Service] *)
Record Service := mkService {
  svc_name : string;
  svc_resourceVersion : string;
  svc_labels : GoMap;
  svc_selector : GoMap;           (* Spec.Selector *)
}.

(** [var baseSvc corev1.Service] *)
Definition zeroService : Service := mkService EmptyString EmptyString None None.

(** [metav1.LabelSelector] *)
Record LabelSelector := mkLabelSelector {
  matchLabels : GoMap;
}.

(** [appsv1.Deployment]; [Spec.Selector] is a pointer. *)
Record Deployment := mkDeployment {
  dep_name : string;
  dep_resourceVersion : string;
  dep_selector : option LabelSelector;   (* Spec.Selector *)
  dep_templateLabels : GoMap;            (* Spec.Template.Labels *)
}.

(** [var baseDeploy appsv1.Deployment] *)
Definition zeroDeployment : Deployment := mkDeployment EmptyString EmptyString None None.

(** [networkingv1beta1.StringMatch] *)
Inductive StringMatch : Type :=
  | StringMatch_Exact (s : string)
  | StringMatch_Prefix (s : string)
  | StringMatch_Regex (s : string).

(** [networkingv1beta1.HTTPMatchRequest]: the header conditions. *)
Record HTTPMatchRequest := mkHTTPMatchRequest {
  match_headers : gmap string StringMatch;
}.

(** [networkingv1beta1.HTTPRouteDestination]: [Destination.Host] and
    [Headers.Request.Add] (nil when no header operation is declared). *)
Record HTTPRouteDestination := mkHTTPRouteDestination {
  dest_host : string;
  dest_requestAdd : GoMap;
}.

(** [networkingv1beta1.HTTPRoute] *)
Record HTTPRoute := mkHTTPRoute {
  route_name : string;
  route_match : list HTTPMatchRequest;
  route_route : list HTTPRouteDestination;
}.

(** [istionetworking.VirtualService] *)
Record VirtualService := mkVirtualService {
  vs_kind : string;                   (* TypeMeta.Kind *)
  vs_apiVersion : string;             (* TypeMeta.APIVersion *)
  vs_name : string;
  vs_namespace : string;
  vs_managedFields : list string;     (* ObjectMeta.ManagedFields *)
  vs_hosts : list string;
  vs_gateways : list string;
  vs_http : list HTTPRoute;
}.

(** The remote registries. *)
Record Cluster := mkCluster {
  services : list Service;                 (* namespace [appNamespace] *)
  deployments : list Deployment;           (* namespace [appNamespace] *)
  virtualServices : list VirtualService;   (* all namespaces *)
}.

(** A Go [error] value; [None] is nil. *)
Abbreviation GoError := (option Error).

(** What the outside world answers in one run: whether credentials can be
    built, which registry calls fail (transport, validation, conflicts), the
    bookkeeping the server writes into an object it returns, and, for a route
    table of more than [GoSort.maxInsertion] routes, the swaps the toolchain's
    [sort.Slice] performs on a table with the given route names. *)
Record Env := mkEnvWith {
  env_k8sConfig : GoError;
  env_istioConfig : GoError;
  env_listServices : GoError;
  env_createService : string → GoError;
  env_listDeployments : GoError;
  env_createDeployment : string → GoError;
  env_listVirtualServices : GoError;
  env_createVirtualService : string → GoError;
  env_patchVirtualService : string → GoError;
  env_serverKind : string;
  env_serverAPIVersion : string;
  env_serverManagedFields : list string;
  env_pdqsortSwaps : list string → list (nat * nat);
}.

(** An environment whose sort of long tables swaps nothing. *)
Definition mkEnv (k8sConfig istioConfig listServices : GoError)
    (createService : string → GoError) (listDeployments : GoError)
    (createDeployment : string → GoError) (listVirtualServices : GoError)
    (createVirtualService patchVirtualService : string → GoError)
    (serverKind serverAPIVersion : string) (serverManagedFields : list string)
  : Env :=
  mkEnvWith k8sConfig istioConfig listServices createService listDeployments
    createDeployment listVirtualServices createVirtualService patchVirtualService
    serverKind serverAPIVersion serverManagedFields (λ _, []).

(** ** Stateful calls: cluster state threaded through, first failure wins *)

Definition M (A : Type) : Type := Cluster → Result A * Cluster.

Definition ret {A} (a : A) : M A := λ c, (Ok a, c).

Definition lift {A} (r : Result A) : M A := λ c, (r, c).

Definition bind {A B} (m : M A) (k : A → M B) : M B :=
  λ c, match m c with
       | (Ok a, c') => k a c'
       | (Err e, c') => (Err e, c')
       | (Panic p, c') => (Panic p, c')
       | (OutOfModel, c') => (OutOfModel, c')
       end.

Notation "'do' x ← m ; k" := (bind m (fun x => k))
  (at level 10, x pattern, m at level 100, k at level 200).

(** [return err] for an [err] that may be nil. *)
Definition returnErr {A} (err : GoError) (zero : A) : M A :=
  match err with
  | Some e => lift (Err e)
  | None => ret zero
  end.

(** [p.f] through a pointer [p] that may be nil. *)
Definition deref {A} (p : option A) : Result A :=
  match p with
  | Some a => Ok a
  | None => Panic NilPointerDereference
  end.

(** ** main.go: the client constructors

    [getRestConfig] and [NewForConfig] are collaborators: on failure the
    constructor returns a nil client set together with the error. *)

Inductive Clientset : Type := clientset.

Definition newK8sClient (env : Env) : option Clientset * GoError :=
  match env_k8sConfig env with
  | Some e => (None, Some e)
  | None => (Some clientset, None)
  end.

Definition newIstioClient (env : Env) : option Clientset * GoError :=
  match env_istioConfig env with
  | Some e => (None, Some e)
  | None => (Some clientset, None)
  end.

(** ** The registries' interface (spec section 6)

    [List] returns what is stored; [Create] refuses a name that is taken and
    returns the stored object; the apply [Patch] overwrites the object of
    that name, creating it when absent.  Every call first consults [Env] for
    a failure the server or the transport reports. *)

Definition appNamespace : string := "default".
Definition istioNamespace : string := "istio-system".
Definition previewHeader : string := "X-PREVIEW".

Definition listServices (env : Env) : M (list Service) :=
  λ c, match env_listServices env with
       | Some e => (Err e, c)
       | None => (Ok (services c), c)
       end.

Definition serviceCreate (env : Env) (svc : Service) : M Service :=
  λ c, match env_createService env (svc_name svc) with
       | Some e => (Err e, c)
       | None =>
           if bool_decide (svc_name svc ∈ svc_name <$> services c)
           then (Err (AlreadyExists (svc_name svc)), c)
           else (Ok svc,
                 mkCluster (services c ++ [svc]) (deployments c) (virtualServices c))
       end.

Definition listDeployments (env : Env) : M (list Deployment) :=
  λ c, match env_listDeployments env with
       | Some e => (Err e, c)
       | None => (Ok (deployments c), c)
       end.

Definition deploymentCreate (env : Env) (d : Deployment) : M Deployment :=
  λ c, match env_createDeployment env (dep_name d) with
       | Some e => (Err e, c)
       | None =>
           if bool_decide (dep_name d ∈ dep_name <$> deployments c)
           then (Err (AlreadyExists (dep_name d)), c)
           else (Ok d,
                 mkCluster (services c) (deployments c ++ [d]) (virtualServices c))
       end.

(** [VirtualServices(metav1.NamespaceAll).List] *)
Definition listVirtualServices (env : Env) : M (list VirtualService) :=
  λ c, match env_listVirtualServices env with
       | Some e => (Err e, c)
       | None => (Ok (virtualServices c), c)
       end.

(** The object as the server hands it back: type meta and managed fields are
    the server's. *)
Definition serverView (env : Env) (vs : VirtualService) : VirtualService :=
  mkVirtualService (env_serverKind env) (env_serverAPIVersion env)
    (vs_name vs) (vs_namespace vs) (env_serverManagedFields env)
    (vs_hosts vs) (vs_gateways vs) (vs_http vs).

Definition sameObject (ns name : string) (vs : VirtualService) : bool :=
  bool_decide (vs_namespace vs = ns) && bool_decide (vs_name vs = name).

(** [VirtualServices(ns).Create] *)
Definition virtualServiceCreate (env : Env) (ns : string) (vs : VirtualService)
  : M VirtualService :=
  λ c, match env_createVirtualService env (vs_name vs) with
       | Some e => (Err e, c)
       | None =>
           if existsb (sameObject ns (vs_name vs)) (virtualServices c)
           then (Err (AlreadyExists (vs_name vs)), c)
           else (Ok (serverView env vs),
                 mkCluster (services c) (deployments c)
                   (virtualServices c ++ [serverView env vs]))
       end.

(** [VirtualServices(ns).Patch(name, types.ApplyPatchType, bytes, opts)] with
    the field manager forced: the submitted document replaces the stored
    object of that namespace and name, or is stored anew when there is none.
    The server refuses a document that names another namespace than the one
    the request addresses.  (Every document the tool submits names one: it
    was either built with [istioNamespace] or read from the registry.) *)
Definition namespaceMismatch : Error :=
  Remote "the namespace of the provided object does not match the namespace sent on the request".

Definition virtualServicePatch (env : Env) (ns name : string) (vs : VirtualService)
  : M VirtualService :=
  λ c, match env_patchVirtualService env name with
       | Some e => (Err e, c)
       | None =>
           if bool_decide (vs_namespace vs ≠ ns) then (Err namespaceMismatch, c)
           else
             let stored := serverView env vs in
             let vss :=
               if existsb (sameObject ns name) (virtualServices c)
               then (λ old, if sameObject ns name old then stored else old)
                      <$> virtualServices c
               else virtualServices c ++ [stored] in
             (Ok stored, mkCluster (services c) (deployments c) vss)
       end.

(** ** The create subcommand: the four stages *)

Record deploySelector := mkDeploySelector {
  key : string;
  value : string;
}.

(** [for _, item := range svcs.Items { if item.Name == name { baseSvc = item; break } }] *)
Fixpoint findService (name : string) (items : list Service) : Service :=
  match items with
  | [] => zeroService
  | item :: rest =>
      if bool_decide (svc_name item = name) then item else findService name rest
  end.

(** [for k, v := range baseSvc.Spec.Selector { selector = &deploySelector{k, v} }]:
    every visited entry overwrites the pointer. *)
Definition rangeSelector (m : GoMap) : option deploySelector :=
  foldl (λ _ kv, Some (mkDeploySelector kv.1 kv.2)) None (mapRange m).

Definition createService (env : Env) (name version : string) : M deploySelector :=
  let '(cs, err) := newK8sClient env in
  match err with
  | Some e => lift (Err e)
  | None =>
      do _ ← lift (deref cs);
      do svcs ← listServices env;
      let baseSvc := findService name svcs in
      match rangeSelector (svc_selector baseSvc) with
      | None => lift (Err (SelectorNotFound name))
      | Some selector =>
          (* newSvc := baseSvc.DeepCopy() *)
          let newName := previewName (svc_name baseSvc) version in
          do labels ← lift (mapAssign (svc_labels baseSvc) (key selector)
                              (previewName (value selector) version));
          do sel ← lift (mapAssign (svc_selector baseSvc) (key selector)
                           (previewName (value selector) version));
          do _ ← serviceCreate env (mkService newName EmptyString labels sel);
          ret selector
      end
  end.

(** The search loop of [createDeploy]; [item.Spec.Selector.MatchLabels] goes
    through the selector pointer of every visited item. *)
Fixpoint findDeploy (selector : deploySelector) (items : list Deployment)
  : Result Deployment :=
  match items with
  | [] => Ok zeroDeployment
  | item :: rest =>
      let? ls := deref (dep_selector item) in
      match mapLookup (matchLabels ls) (key selector) with
      | None => findDeploy selector rest
      | Some val =>
          if bool_decide (val = value selector) then Ok item
          else findDeploy selector rest
      end
  end.

Definition createDeploy (env : Env) (selector : deploySelector) (version : string)
  : M unit :=
  let '(cs, err) := newK8sClient env in
  match err with
  | Some e => lift (Err e)
  | None =>
      do _ ← lift (deref cs);
      do deps ← listDeployments env;
      do baseDeploy ← lift (findDeploy selector deps);
      (* newDeploy := baseDeploy.DeepCopy() *)
      let newName := previewName (dep_name baseDeploy) version in
      do ls ← lift (deref (dep_selector baseDeploy));
      do ml ← lift (mapAssign (matchLabels ls) (key selector)
                      (previewName (value selector) version));
      do tl ← lift (match mapLookup (dep_templateLabels baseDeploy) (key selector) with
                    | Some _ => mapAssign (dep_templateLabels baseDeploy) (key selector)
                                  (previewName (value selector) version)
                    | None => Ok (dep_templateLabels baseDeploy)
                    end);
      do _ ← deploymentCreate env
               (mkDeployment newName EmptyString (Some (mkLabelSelector ml)) tl);
      ret tt
  end.

(** [fmt.Sprintf("%s.%s.svc.cluster.local", originSvcName, appNamespace)] *)
Definition serviceHost (originSvcName : string) : string :=
  originSvcName +:+ "." +:+ appNamespace +:+ ".svc.cluster.local".

(** The object [createGatewayVirtualService] builds (lines 164-192). *)
Definition gatewayVirtualService (url gateway originSvcName version : string)
  : VirtualService :=
  let previewSvcName := serviceHost originSvcName in
  let previewHost := previewName previewSvcName version in
  mkVirtualService "VirtualService" "networking.istio.io/v1beta1"
    (previewGatewayVirtualServiceName originSvcName version) istioNamespace []
    [url] [gateway]
    [ mkHTTPRoute previewHost []
        [ mkHTTPRouteDestination previewHost
            (Some {[ previewHeader := previewName originSvcName version ]}) ] ].

Definition createGatewayVirtualService (env : Env)
    (url gateway originSvcName version : string) : M unit :=
  let '(ics, err) := newIstioClient env in
  if bool_decide (err ≠ err) then returnErr err tt
  else
    do _ ← lift (deref ics);
    let vs := gatewayVirtualService url gateway originSvcName version in
    λ c, match virtualServiceCreate env istioNamespace vs c with
         | (Err e, c') => (Err (Wrapped "failed to create new virtual-service" e), c')
         | (Ok _, c') => (Ok tt, c')
         | (Panic p, c') => (Panic p, c')
         | (OutOfModel, c') => (OutOfModel, c')
         end.

(** The search of [createSidecarVirtualService] (lines 215-227): objects bound
    to a gateway are skipped, and every host equal to [originHost] overwrites
    [baseResource] with a copy of its object. *)
Definition locateBase (originHost : string) (items : list VirtualService)
  : option VirtualService :=
  foldl (λ baseResource i,
           if bool_decide (length (vs_gateways i) ≠ 0%nat) then baseResource
           else foldl (λ b h, if bool_decide (h = originHost) then Some i else b)
                  baseResource (vs_hosts i))
    None items.

(** The object created when no base exists (lines 233-253). *)
Definition sidecarBase (originSvcName : string) : VirtualService :=
  let originHost := serviceHost originSvcName in
  mkVirtualService "VirtualService" "networking.istio.io/v1beta1"
    (previewVirtualServiceName originSvcName) istioNamespace []
    [originHost] []
    [ mkHTTPRoute originHost [] [ mkHTTPRouteDestination originHost None ] ].

(** The route appended for a version (lines 261-277). *)
Definition previewRoute (originSvcName version : string) : HTTPRoute :=
  let previewHost := previewName (serviceHost originSvcName) version in
  mkHTTPRoute previewHost
    [ mkHTTPMatchRequest
        {[ previewHeader := StringMatch_Prefix (previewName EmptyString version) ]} ]
    [ mkHTTPRouteDestination previewHost None ].

(** The closure handed to [sort.Slice] (lines 286-288): it ignores its second
    index.  The sort only passes indices below the length, so the
    out-of-range read, a panic in Go, is never reached. *)
Definition previewLess (http : list HTTPRoute) (i _j : nat) : bool :=
  match http !! i with
  | Some r => GoStrings.HasPrefix (route_name r) previewPrefixName
  | None => false
  end.

(** Lines 210-259: list through the client, search, create the base when
    the search found none. *)
Definition sidecarLocateOrCreate (env : Env) (ics : option Clientset)
    (originSvcName : string) : M VirtualService :=
  let originHost := serviceHost originSvcName in
  do _ ← lift (deref ics);
  do vss ← listVirtualServices env;
  match locateBase originHost vss with
  | Some baseResource => ret baseResource
  | None => virtualServiceCreate env istioNamespace (sidecarBase originSvcName)
  end.

(** Lines 261-288: append the route, reset the bookkeeping, sort. *)
Definition sidecarCompose (env : Env) (baseResource : VirtualService)
    (originSvcName version : string) : Result VirtualService :=
  let http := vs_http baseResource ++ [previewRoute originSvcName version] in
  let? sorted :=
    GoSort.Slice previewLess (env_pdqsortSwaps env (route_name <$> http)) http in
  Ok (mkVirtualService "VirtualService" "networking.istio.io/v1beta1"
        (vs_name baseResource) (vs_namespace baseResource) []
        (vs_hosts baseResource) (vs_gateways baseResource) sorted).

(** [json.Marshal] of this document does not fail; the patch carries it whole. *)
Definition createSidecarVirtualService (env : Env) (originSvcName version : string)
  : M unit :=
  let '(ics, err) := newIstioClient env in
  if bool_decide (err ≠ err) then returnErr err tt
  else
    do baseResource ← sidecarLocateOrCreate env ics originSvcName;
    do patched ← lift (sidecarCompose env baseResource originSvcName version);
    do _ ← virtualServicePatch env istioNamespace (vs_name patched) patched;
    ret tt.

(** ** The create subcommand: flags and driver *)

Record cmdCreate := mkCmdCreate {
  originService : string;
  previewVersion : string;
  previewGateway : string;
  previewURL : string;
}.

Definition cmdCreate_RunE (env : Env) (c : cmdCreate) : M unit :=
  do selector ← createService env (originService c) (previewVersion c);
  do _ ← createDeploy env selector (previewVersion c);
  do _ ← createSidecarVirtualService env (originService c) (previewVersion c);
  do _ ← createGatewayVirtualService env (previewURL c) (previewGateway c)
           (originService c) (previewVersion c);
  ret tt.

(** The part of cobra and pflag the subcommand uses.  A string flag is bound
    to a field of the command struct; [StringVarP] stores the default into
    that field at declaration; [MarkFlagRequired] annotates the flag of that
    name and reports an error when there is none. *)
Module Cobra.

Inductive Field : Type := FVersion | FService | FGateway | FURL.

Definition setField (f : Field) (v : string) (c : cmdCreate) : cmdCreate :=
  match f with
  | FVersion => mkCmdCreate (originService c) v (previewGateway c) (previewURL c)
  | FService => mkCmdCreate v (previewVersion c) (previewGateway c) (previewURL c)
  | FGateway => mkCmdCreate (originService c) (previewVersion c) v (previewURL c)
  | FURL => mkCmdCreate (originService c) (previewVersion c) (previewGateway c) v
  end.

Record Flag := mkFlag {
  flag_name : string;
  flag_shorthand : string;
  flag_defValue : string;
  flag_usage : string;
  flag_target : Field;
  flag_required : bool;      (* the one-required-flag annotation *)
}.

Record Command := mkCommand {
  cmd_use : string;
  cmd_short : string;
  cmd_flags : list Flag;
}.

Definition StringVarP (p : Field) (name shorthand value usage : string)
    (st : Command * cmdCreate) : Command * cmdCreate :=
  (mkCommand (cmd_use st.1) (cmd_short st.1)
     (cmd_flags st.1 ++ [mkFlag name shorthand value usage p false]),
   setField p value st.2).

Definition markRequired (name : string) (f : Flag) : Flag :=
  if bool_decide (flag_name f = name)
  then mkFlag (flag_name f) (flag_shorthand f) (flag_defValue f)
         (flag_usage f) (flag_target f) true
  else f.

Definition MarkFlagRequired (name : string) (cmd : Command) : Command * GoError :=
  if bool_decide (name ∈ flag_name <$> cmd_flags cmd)
  then (mkCommand (cmd_use cmd) (cmd_short cmd)
          (markRequired name <$> cmd_flags cmd), None)
  else (cmd, Some (Remote ("no such flag -" +:+ name))).

(** A command line, as the [--name value] pairs it carries. *)
Definition Args := list (string * string).

(** [ParseFlags]: each pair sets the field its flag is bound to; a name no
    flag carries is an error.  The one flag cobra itself adds to every
    command at execution, [help], is not embedded: a command line that
    carries it leaves the model. *)
Fixpoint parseFlags (flags : list Flag) (args : Args) (c : cmdCreate)
  : Result cmdCreate :=
  match args with
  | [] => Ok c
  | (n, v) :: rest =>
      match find (λ f, bool_decide (flag_name f = n)) flags with
      | Some f => parseFlags flags rest (setField (flag_target f) v c)
      | None => if bool_decide (n = "help") then OutOfModel else Err (UnknownFlag n)
      end
  end.

(** [FlagSet.VisitAll]: the flags in lexicographical order of their names
    (the flag set sorts by default). *)
Definition VisitAll (flags : list Flag) : list Flag :=
  merge_sort (λ f g, String.le (flag_name f) (flag_name g)) flags.

(** [validateRequiredFlags]: the annotated flags that were not set, as
    [VisitAll] meets them. *)
Definition validateRequiredFlags (flags : list Flag) (args : Args) : Result unit :=
  let missing :=
    flag_name
      <$> filter (λ f, flag_required f = true ∧ flag_name f ∉ args.*1)
            (VisitAll flags) in
  match missing with
  | [] => Ok tt
  | _ => Err (MissingFlags missing)
  end.

End Cobra.

Definition cmdCreate_New (c : cmdCreate) : Cobra.Command * cmdCreate :=
  let cmd := Cobra.mkCommand "create" "create preview resources" [] in
  let '(cmd, c) := Cobra.StringVarP Cobra.FVersion "version" "v" EmptyString
                     "preview version (e.g. pull-request ID)" (cmd, c) in
  let '(cmd, _) := Cobra.MarkFlagRequired "version" cmd in
  let '(cmd, c) := Cobra.StringVarP Cobra.FService "service" "s" EmptyString
                     "preview original service name" (cmd, c) in
  let '(cmd, _) := Cobra.MarkFlagRequired "service" cmd in
  let '(cmd, c) := Cobra.StringVarP Cobra.FGateway "gateway" "g" "my-gateway"
                     "ingressgateway name" (cmd, c) in
  let '(cmd, c) := Cobra.StringVarP Cobra.FURL "url" "u" EmptyString
                     "preview endpoint url" (cmd, c) in
  let '(cmd, _) := Cobra.MarkFlagRequired "previewURL" cmd in
  (cmd, c).

(** [createCmd := &cmdCreate{}] *)
Definition zeroCmdCreate : cmdCreate := mkCmdCreate EmptyString EmptyString EmptyString EmptyString.

(** Running [preview create] on a command line: parse, check the required
    flags, then [RunE]. *)
Definition execute (env : Env) (args : Cobra.Args) : M unit :=
  let '(cmd, c) := cmdCreate_New zeroCmdCreate in
  do c ← lift (Cobra.parseFlags (Cobra.cmd_flags cmd) args c);
  do _ ← lift (Cobra.validateRequiredFlags (Cobra.cmd_flags cmd) args);
  cmdCreate_RunE env c.

(** ** Vocabulary of the properties *)

(** A route whose name carries the reserved prefix: the test of [previewLess]. *)
Definition isPreviewRoute (r : HTTPRoute) : bool :=
  GoStrings.HasPrefix (route_name r) previewPrefixName.

(** The routes of a sequence other than those named [name], in order. *)
Definition routesOtherThan (name : string) (http : list HTTPRoute) : list HTTPRoute :=
  filter (λ r, route_name r ≠ name) http.

(** The stable partition of a route sequence: prefixed routes first, each
    group in its original order. *)
Definition stablePartition (http : list HTTPRoute) : list HTTPRoute :=
  filter (λ r, isPreviewRoute r = true) http
    ++ filter (λ r, isPreviewRoute r = false) http.

(** The values a routing object adds to request header [h], one per
    destination that adds it. *)
Definition stampedHeader (vs : VirtualService) (h : string) : list string :=
  omap (λ d, mapLookup (dest_requestAdd d) h) (vs_http vs ≫= route_route).

(** The conditions a route puts on request header [h], one per match block
    that mentions it. *)
Definition headerConditions (r : HTTPRoute) (h : string) : list StringMatch :=
  omap (λ m, match_headers m !! h) (route_match r).

(** Whether a header value satisfies a condition; regular expressions are
    not evaluated. *)
Definition stringMatchHolds (m : StringMatch) (v : string) : option bool :=
  match m with
  | StringMatch_Exact s => Some (bool_decide (v = s))
  | StringMatch_Prefix p => Some (GoStrings.HasPrefix v p)
  | StringMatch_Regex _ => None
  end.

(** A map that offers no selector pair: nil or without entries. *)
Definition noEntries (m : GoMap) : Prop := m = None ∨ m = Some ∅.

(** An environment in which every collaborator answers. *)
Definition quietEnv : Env :=
  mkEnv None None None (λ _, None) None (λ _, None) None (λ _, None) (λ _, None)
    EmptyString EmptyString ["kube-apiserver"].

Definition emptyCluster : Cluster := mkCluster [] [] [].

(** The route table stored for an origin, if any. *)
Definition storedRoutes (originSvcName : string) (c : Cluster) : option (list HTTPRoute) :=
  vs_http <$> find (sameObject istioNamespace (previewVirtualServiceName originSvcName))
                (virtualServices c).

(** Route composition run for each version in turn, stopping at the first
    run that does not succeed. *)
Fixpoint composeAll (env : Env) (originSvcName : string) (versions : list string)
  : M unit :=
  match versions with
  | [] => ret tt
  | v :: rest =>
      do _ ← createSidecarVirtualService env originSvcName v;
      composeAll env originSvcName rest
  end.

(** A comparison that looks at its first index only, as [previewLess] does,
    and what insertion sort does with one element under it: a marked element
    travels to the front, an unmarked one stays behind everything sorted so
    far. *)
Definition lessFirst {A} (p : A → bool) (xs : list A) (i _j : nat) : bool :=
  match xs !! i with
  | Some x => p x
  | None => false
  end.

Definition place {A} (p : A → bool) (sorted : list A) (x : A) : list A :=
  if p x then x :: sorted else sorted ++ [x].

(** The routing registry answers every call of a run. *)
Definition routingRegistryAnswers (env : Env) : Prop :=
  env_istioConfig env = None
  ∧ env_listVirtualServices env = None
  ∧ (∀ n, env_createVirtualService env n = None)
  ∧ (∀ n, env_patchVirtualService env n = None).

(** The default route of an origin: no match block, destination the origin
    host. *)
Definition defaultRoute (originSvcName : string) : HTTPRoute :=
  mkHTTPRoute (serviceHost originSvcName) []
    [ mkHTTPRouteDestination (serviceHost originSvcName) None ].

(** The document [sidecarCompose] hands to the patch, given its routes. *)
Definition restamped (baseResource : VirtualService) (http : list HTTPRoute)
  : VirtualService :=
  mkVirtualService "VirtualService" "networking.istio.io/v1beta1"
    (vs_name baseResource) (vs_namespace baseResource) []
    (vs_hosts baseResource) (vs_gateways baseResource) http.

(** A mesh-internal routing object for host [h]: no gateway binding, and [h]
    among its hosts. *)
Definition candidate (h : string) (i : VirtualService) : bool :=
  bool_decide (vs_gateways i = []) && bool_decide (h ∈ vs_hosts i).

(** An environment in which the routing-registry client cannot be built. *)
Definition noIstioClientEnv : Env :=
  mkEnv None (Some (Remote "stat /root/.kube/config: no such file or directory"))
    None (λ _, None) None (λ _, None) None (λ _, None) (λ _, None)
    EmptyString EmptyString ["kube-apiserver"].

(** The flags a command marks as required. *)
Definition requiredFlags (cmd : Cobra.Command) : list string :=
  Cobra.flag_name <$> filter (λ f, Cobra.flag_required f = true) (Cobra.cmd_flags cmd).

(** The workload registry only gained objects: what was stored is still
    there, unchanged and in the same place. *)
Definition workloadsKept (c c' : Cluster) : Prop :=
  services c `prefix_of` services c' ∧ deployments c `prefix_of` deployments c'.

(** The preview routes of a table the tool built for the versions [vs], in
    table order: each run puts its route first and reverses the others. *)
Definition tableOrder (originSvcName : string) (vs : list string) : list HTTPRoute :=
  foldl (λ ps v, previewRoute originSvcName v :: reverse ps) [] vs.

(** The Service [createService] submits for an origin and a selector pair. *)
Definition previewService (origin : Service) (selector : deploySelector)
    (version : string) (labels sel : gmap string string) : Service :=
  mkService (previewName (svc_name origin) version) EmptyString
    (Some (<[key selector := previewName (value selector) version]> labels))
    (Some (<[key selector := previewName (value selector) version]> sel)).

(** The workload registry answers every call of a run. *)
Definition workloadRegistryAnswers (env : Env) : Prop :=
  env_k8sConfig env = None
  ∧ env_listServices env = None
  ∧ (∀ n, env_createService env n = None)
  ∧ env_listDeployments env = None
  ∧ (∀ n, env_createDeployment env n = None).

(** * Properties *)

(** ** Strings *)

Section StringFacts.
Import GoStrings.

Lemma app_String (c : Ascii.ascii) (s t : string) :
  String c s +:+ t = String c (s +:+ t).
Proof. reflexivity. Qed.

Lemma HasPrefix_app (p s : string) : HasPrefix (p +:+ s) p = true.
Proof.
  induction p as [|c p IH]; [done|].
  rewrite app_String. cbn [HasPrefix].
  rewrite bool_decide_eq_true_2 by done. exact IH.
Qed.

Lemma HasPrefix_app_both (p s t : string) :
  HasPrefix (p +:+ s) (p +:+ t) = HasPrefix s t.
Proof.
  induction p as [|c p IH]; [done|].
  rewrite !app_String. cbn [HasPrefix].
  rewrite bool_decide_eq_true_2 by done. exact IH.
Qed.

Lemma string_take_app (v s : string) : take (String.length v) (v +:+ s) = v.
Proof.
  induction v as [|c v IH]; [done|].
  rewrite app_String. cbn [String.length take]. by rewrite IH.
Qed.

Lemma string_drop_app (v s : string) : drop (String.length v) (v +:+ s) = s.
Proof.
  induction v as [|c v IH]; [done|].
  rewrite app_String. cbn [String.length drop]. exact IH.
Qed.

Lemma string_length_app (s t : string) :
  String.length (s +:+ t) = (String.length s + String.length t)%nat.
Proof.
  induction s as [|c s IH]; [done|].
  rewrite app_String. cbn [String.length]. by rewrite IH.
Qed.

Lemma app_cons_assoc (v s : string) (c : Ascii.ascii) :
  (v +:+ String c EmptyString) +:+ s = v +:+ String c s.
Proof.
  induction v as [|d v IH]; [done|].
  rewrite !app_String. by rewrite IH.
Qed.

Lemma Index_lower (s sep : string) : -1 ≤ Index s sep.
Proof.
  induction s as [|c s IH]; simpl.
  - destruct (HasPrefix EmptyString sep); lia.
  - destruct (HasPrefix (String c s) sep); [lia|].
    destruct (Z.ltb_spec (Index s sep) 0); lia.
Qed.

(** A one-byte separator absent from [v] is first found right after [v]. *)
Lemma Index_after (c : Ascii.ascii) (v s : string) :
  Contains v (String c EmptyString) = false →
  Index (v +:+ String c s) (String c EmptyString) = len v.
Proof.
  unfold Contains, len. induction v as [|d v IH]; intros Hv.
  - simpl. by rewrite bool_decide_eq_true_2.
  - change (String d v +:+ String c s) with (String d (v +:+ String c s)).
    change (String.length (String d v)) with (S (String.length v)).
    rewrite Nat2Z.inj_succ.
    revert Hv. cbn [Index HasPrefix]. rewrite !andb_true_r.
    destruct (bool_decide (c = d)); [done|].
    pose proof (Index_lower v (String c EmptyString)) as Hlo.
    destruct (Z.ltb_spec (Index v (String c EmptyString)) 0) as [Hneg|Hpos].
    + intros _. rewrite IH by (apply Z.leb_gt; lia).
      destruct (Z.ltb_spec (Z.of_nat (String.length v)) 0); lia.
    + intros Hc. apply Z.leb_gt in Hc. lia.
Qed.
Lemma sliceFrom_app (p s : string) : sliceFrom (p +:+ s) (len p) = Ok s.
Proof.
  unfold sliceFrom, len. rewrite string_length_app, Nat2Z.id, string_drop_app.
  destruct (Z.leb_spec 0 (Z.of_nat (String.length p))); [|lia].
  destruct (Z.leb_spec (Z.of_nat (String.length p))
              (Z.of_nat (String.length p + String.length s))); [done|lia].
Qed.

(** Cutting once at a one-byte separator that [v] does not contain. *)
Lemma SplitN_first (c : Ascii.ascii) (v s : string) :
  Contains v (String c EmptyString) = false →
  SplitN (v +:+ String c s) (String c EmptyString) 2 = Ok [v; s].
Proof.
  intros Hv. unfold SplitN.
  change (2 =? 0) with false. cbn iota.
  rewrite bool_decide_eq_false_2 by done.
  change (2 <? 0) with false. cbn [orb].
  assert ((len (v +:+ String c s) + 1 <? 2) = false) as ->.
  { apply Z.ltb_ge. unfold len. rewrite string_length_app.
    cbn [String.length]. lia. }
  change (Z.to_nat (2 - 1)) with 1%nat. cbn [splitLoop].
  rewrite (Index_after c v s Hv).
  assert ((len v <? 0) = false) as -> by (apply Z.ltb_ge; unfold len; lia).
  unfold len at 1. rewrite Nat2Z.id, string_take_app.
  replace (Z.to_nat (len v + len (String c EmptyString))) with (String.length (v +:+ String c EmptyString))
    by (unfold len; rewrite string_length_app; cbn [String.length]; lia).
  rewrite <- (app_cons_assoc v s c).
  by rewrite string_drop_app.
Qed.
End StringFacts.

(** ** The naming codec *)

Lemma previewName_has_prefix (origin version : string) :
  GoStrings.HasPrefix (previewName origin version) previewPrefixName = true.
Proof. apply HasPrefix_app. Qed.

Lemma getVersionFromPreview_previewName (n v : string) :
  GoStrings.Contains v "-" = false →
  getVersionFromPreview (previewName n v) = Ok v.
Proof.
  intros Hv. unfold getVersionFromPreview.
  rewrite previewName_has_prefix. cbn [negb].
  unfold previewName. rewrite sliceFrom_app. cbn [rbind].
  change ("-" +:+ n) with (String "-"%char n).
  by rewrite (SplitN_first "-"%char v n Hv).
Qed.

(** C3. For every origin name [n] and version tag [v] of which neither
    contains the reserved prefix nor the separator, decoding the encoded
    preview name recovers the version:
    [getVersionFromPreview (previewName n v)] returns [v]. *)
Theorem decode_encode_version (n v : string) :
  GoStrings.Contains n previewPrefixName = false →
  GoStrings.Contains n "-" = false →
  GoStrings.Contains v previewPrefixName = false →
  GoStrings.Contains v "-" = false →
  getVersionFromPreview (previewName n v) = Ok v.
Proof. intros _ _ _ Hv. by apply getVersionFromPreview_previewName. Qed.

Lemma decode_encode_version_witness :
  getVersionFromPreview (previewName "checkout" "42") = Ok "42".
Proof. by apply (decode_encode_version "checkout" "42"). Defined.

(** ** Insertion sort under a comparison that looks at its first index only *)

Section SortFacts.
Context {A : Type} (p : A → bool).

Lemma swap_adjacent (l l2 : list A) (y x : A) :
  GoSort.swap (l ++ y :: x :: l2) (S (length l)) (length l) = l ++ x :: y :: l2.
Proof.
  unfold GoSort.swap.
  rewrite (lookup_app_r l) by lia.
  replace (S (length l) - length l)%nat with 1%nat by lia.
  rewrite list_lookup_middle by done. cbn [lookup list_lookup].
  rewrite !insert_app_r_alt by lia.
  replace (S (length l) - length l)%nat with 1%nat by lia.
  by rewrite Nat.sub_diag.
Qed.

Lemma insertionInner_place (l1 l2 : list A) (x : A) :
  GoSort.insertionInner (lessFirst p) 0 (length l1) (l1 ++ x :: l2)
  = place p l1 x ++ l2.
Proof.
  revert l2. induction l1 as [|y l IH] using rev_ind; intros l2.
  - unfold place. by destruct (p x).
  - rewrite length_app, Nat.add_1_r. cbn [GoSort.insertionInner length].
    rewrite bool_decide_eq_true_2 by lia. cbn [andb].
    rewrite <- (app_assoc l [y]). cbn [app].
    unfold lessFirst at 1.
    rewrite (lookup_app_r l) by lia.
    replace (S (length l) - length l)%nat with 1%nat by lia.
    cbn [lookup list_lookup].
    unfold place. destruct (p x) eqn:Hp.
    + rewrite swap_adjacent, IH. unfold place. rewrite Hp.
      cbn [app]. by rewrite <- app_assoc.
    + by rewrite <- !app_assoc.
Qed.

Lemma length_place (sorted : list A) (x : A) :
  length (place p sorted x) = S (length sorted).
Proof.
  unfold place. destruct (p x); [done|].
  rewrite length_app. cbn [length]. lia.
Qed.

(** The outer loop over the unsorted tail places its elements one by one. *)
Lemma insertion_outer (rest sorted : list A) :
  foldl (λ ys i, GoSort.insertionInner (lessFirst p) 0 i ys) (sorted ++ rest)
    (seq (length sorted) (length rest))
  = foldl (place p) sorted rest.
Proof.
  revert sorted. induction rest as [|x rest IH]; intros sorted.
  - by rewrite app_nil_r.
  - cbn [length seq foldl].
    rewrite insertionInner_place, <- length_place with (x := x).
    apply IH.
Qed.

Lemma foldl_place (rest sorted : list A) :
  foldl (place p) sorted rest
  = reverse (filter (λ x, p x = true) rest) ++ sorted
      ++ filter (λ x, p x = false) rest.
Proof.
  revert sorted. induction rest as [|x rest IH]; intros sorted.
  - by rewrite app_nil_r.
  - cbn [foldl]. rewrite IH. unfold place.
    rewrite !filter_cons. destruct (p x) eqn:Hp.
    + rewrite decide_True, decide_False by done.
      rewrite reverse_cons, <- !app_assoc. done.
    + rewrite decide_False, decide_True by done.
      rewrite <- !app_assoc. done.
Qed.

(** The marked elements come out first and in reverse, the others after
    them in their original order. *)
Lemma insertionSort_func_lessFirst (xs : list A) :
  GoSort.insertionSort_func (lessFirst p) 0 (length xs) xs
  = reverse (filter (λ x, p x = true) xs) ++ filter (λ x, p x = false) xs.
Proof.
  unfold GoSort.insertionSort_func. destruct xs as [|x xs]; [done|].
  cbn [length]. rewrite Nat.sub_succ, Nat.sub_0_r.
  change (x :: xs) with ([x] ++ xs) at 1.
  change 1%nat with (length [x]).
  rewrite insertion_outer, foldl_place.
  rewrite !filter_cons. destruct (p x) eqn:Hp.
  - rewrite decide_True, decide_False by done.
    rewrite reverse_cons, <- !app_assoc. done.
  - rewrite decide_False, decide_True by done. done.
Qed.

Lemma Slice_lessFirst (swaps : list (nat * nat)) (xs : list A) :
  (length xs ≤ GoSort.maxInsertion)%nat →
  GoSort.Slice (lessFirst p) swaps xs
  = Ok (reverse (filter (λ x, p x = true) xs) ++ filter (λ x, p x = false) xs).
Proof.
  intros Hlen. unfold GoSort.Slice.
  rewrite bool_decide_eq_true_2 by done.
  by rewrite insertionSort_func_lessFirst.
Qed.
End SortFacts.

(** ** Route composition *)

Lemma Slice_previewLess (swaps : list (nat * nat)) (http : list HTTPRoute) :
  (length http ≤ GoSort.maxInsertion)%nat →
  GoSort.Slice previewLess swaps http
  = Ok (reverse (filter (λ r, isPreviewRoute r = true) http)
          ++ filter (λ r, isPreviewRoute r = false) http).
Proof. apply (Slice_lessFirst isPreviewRoute). Qed.

Lemma sidecarCompose_routes (env : Env) (baseResource : VirtualService)
    (o v : string) :
  (length (vs_http baseResource) < GoSort.maxInsertion)%nat →
  sidecarCompose env baseResource o v
  = Ok (restamped baseResource
          (reverse (filter (λ r, isPreviewRoute r = true)
                      (vs_http baseResource ++ [previewRoute o v]))
             ++ filter (λ r, isPreviewRoute r = false)
                  (vs_http baseResource ++ [previewRoute o v]))).
Proof.
  intros Hlen. unfold sidecarCompose.
  rewrite Slice_previewLess; [done|].
  rewrite length_app. cbn [length]. lia.
Qed.

Lemma isPreviewRoute_previewRoute (o v : string) :
  isPreviewRoute (previewRoute o v) = true.
Proof. apply HasPrefix_app. Qed.

(** The origin host carries the prefix exactly when the origin name does. *)
Lemma HasPrefix_serviceHost (o : string) :
  GoStrings.HasPrefix (serviceHost o) previewPrefixName
  = GoStrings.HasPrefix o previewPrefixName.
Proof.
  unfold serviceHost, previewPrefixName.
  destruct o as [|a [|b o]]; [done| |].
  - rewrite app_String. cbn. by rewrite !andb_false_r.
  - rewrite !app_String. done.
Qed.

Lemma isPreviewRoute_defaultRoute (o : string) :
  isPreviewRoute (defaultRoute o) = GoStrings.HasPrefix o previewPrefixName.
Proof. apply HasPrefix_serviceHost. Qed.

Lemma newIstioClient_ok (env : Env) :
  env_istioConfig env = None → newIstioClient env = (Some clientset, None).
Proof. unfold newIstioClient. by intros ->. Qed.

Lemma sidecarLocateOrCreate_found (env : Env) (o : string) (c : Cluster)
    (b : VirtualService) :
  env_listVirtualServices env = None →
  locateBase (serviceHost o) (virtualServices c) = Some b →
  sidecarLocateOrCreate env (Some clientset) o c = (Ok b, c).
Proof.
  intros Hlist Hloc. unfold sidecarLocateOrCreate.
  unfold bind, lift, listVirtualServices, deref. rewrite Hlist, Hloc. done.
Qed.

Lemma sidecarLocateOrCreate_created (env : Env) (o : string) (c : Cluster) :
  env_listVirtualServices env = None →
  env_createVirtualService env (previewVirtualServiceName o) = None →
  locateBase (serviceHost o) (virtualServices c) = None →
  existsb (sameObject istioNamespace (previewVirtualServiceName o))
    (virtualServices c) = false →
  sidecarLocateOrCreate env (Some clientset) o c
  = (Ok (serverView env (sidecarBase o)),
     mkCluster (services c) (deployments c)
       (virtualServices c ++ [serverView env (sidecarBase o)])).
Proof.
  intros Hlist Hcreate Hloc Hfresh. unfold sidecarLocateOrCreate.
  unfold bind, lift, listVirtualServices, deref. rewrite Hlist, Hloc.
  unfold virtualServiceCreate. cbn [vs_name sidecarBase].
  by rewrite Hcreate, Hfresh.
Qed.

(** Once the base is in hand, a run is the composition followed by the patch. *)
Lemma createSidecarVirtualService_from_base (env : Env) (o v : string)
    (c c1 : Cluster) (b : VirtualService) :
  env_istioConfig env = None →
  sidecarLocateOrCreate env (Some clientset) o c = (Ok b, c1) →
  (length (vs_http b) < GoSort.maxInsertion)%nat →
  env_patchVirtualService env (vs_name b) = None →
  vs_namespace b = istioNamespace →
  ∃ c2,
    createSidecarVirtualService env o v c = (Ok tt, c2)
    ∧ virtualServicePatch env istioNamespace (vs_name b)
        (restamped b
           (reverse (filter (λ r, isPreviewRoute r = true)
                       (vs_http b ++ [previewRoute o v]))
              ++ filter (λ r, isPreviewRoute r = false)
                   (vs_http b ++ [previewRoute o v]))) c1
      = (Ok (serverView env
               (restamped b
                  (reverse (filter (λ r, isPreviewRoute r = true)
                              (vs_http b ++ [previewRoute o v]))
                     ++ filter (λ r, isPreviewRoute r = false)
                          (vs_http b ++ [previewRoute o v])))), c2).
Proof.
  intros Hcfg Hbase Hlen Hpatch Hns.
  unfold createSidecarVirtualService. rewrite (newIstioClient_ok env Hcfg).
  rewrite bool_decide_eq_false_2 by (intros H; by apply H).
  unfold bind at 1. rewrite Hbase.
  unfold bind at 1, lift. rewrite (sidecarCompose_routes env b o v Hlen).
  unfold bind, ret, virtualServicePatch. cbn [vs_name vs_namespace restamped].
  rewrite Hpatch, (bool_decide_eq_false_2 (vs_namespace b ≠ istioNamespace))
    by (intros H; by apply H).
  eexists. split; reflexivity.
Qed.

(** ** The registry after a run *)

Ltac decide_bools :=
  repeat match goal with
    | |- context [decide (?a = ?b)] =>
        first [ rewrite (decide_True (P := a = b)) by done
              | rewrite (decide_False (P := a = b)) by done ]
    end.

Lemma existsb_false_fmap_id (ns name : string) (stored : VirtualService)
    (vss : list VirtualService) :
  existsb (sameObject ns name) vss = false →
  (λ old, if sameObject ns name old then stored else old) <$> vss = vss.
Proof.
  induction vss as [|x vss IH]; [done|].
  cbn [existsb fmap list_fmap]. intros [Hx Hrest]%orb_false_iff.
  rewrite Hx. f_equal. by apply IH.
Qed.

(** Patching the object that sits last in the registry replaces it in place. *)
Lemma virtualServicePatch_last (env : Env) (ns name : string)
    (vs x : VirtualService) (s : list Service) (d : list Deployment)
    (vss : list VirtualService) :
  env_patchVirtualService env name = None →
  vs_namespace vs = ns →
  existsb (sameObject ns name) vss = false →
  sameObject ns name x = true →
  virtualServicePatch env ns name vs (mkCluster s d (vss ++ [x]))
  = (Ok (serverView env vs), mkCluster s d (vss ++ [serverView env vs])).
Proof.
  intros Hpatch Hns Hfresh Hx. unfold virtualServicePatch. rewrite Hpatch.
  rewrite bool_decide_eq_false_2 by (intros H; by apply H).
  cbn [virtualServices services deployments].
  rewrite existsb_app, Hfresh. cbn [existsb orb]. rewrite Hx. cbn [orb].
  rewrite fmap_app, existsb_false_fmap_id by done.
  cbn [fmap list_fmap]. by rewrite Hx.
Qed.

(** The search keeps the last candidate: an object without gateway whose
    only host is the origin host, sitting last, is the one found. *)
Lemma locateBase_last (h : string) (vss : list VirtualService) (x : VirtualService) :
  vs_gateways x = [] → vs_hosts x = [h] →
  locateBase h (vss ++ [x]) = Some x.
Proof.
  intros Hg Hh. unfold locateBase. rewrite foldl_app. cbn [foldl].
  rewrite Hg, Hh. cbn [length foldl].
  rewrite bool_decide_eq_false_2 by (intros H; by apply H).
  by rewrite bool_decide_eq_true_2.
Qed.

Lemma find_last (ns name : string) (vss : list VirtualService) (x : VirtualService) :
  existsb (sameObject ns name) vss = false →
  sameObject ns name x = true →
  find (sameObject ns name) (vss ++ [x]) = Some x.
Proof.
  intros Hfresh Hx. induction vss as [|y vss IH].
  - cbn. by rewrite Hx.
  - cbn [existsb] in Hfresh. apply orb_false_iff in Hfresh as [Hy Hrest].
    cbn [app find]. rewrite Hy. by apply IH.
Qed.

Lemma sameObject_refl (ns name : string) (vs : VirtualService) :
  vs_namespace vs = ns → vs_name vs = name → sameObject ns name vs = true.
Proof. intros <- <-. unfold sameObject. by rewrite !bool_decide_eq_true_2. Qed.

(** A first run for an origin that has no table yet: the base is created and
    patched to the preview route followed by the default route. *)
Lemma first_composition (env : Env) (o v : string) (c : Cluster) :
  routingRegistryAnswers env →
  GoStrings.HasPrefix o previewPrefixName = false →
  locateBase (serviceHost o) (virtualServices c) = None →
  existsb (sameObject istioNamespace (previewVirtualServiceName o))
    (virtualServices c) = false →
  createSidecarVirtualService env o v c
  = (Ok tt,
     mkCluster (services c) (deployments c)
       (virtualServices c
          ++ [serverView env
                (restamped (sidecarBase o) [previewRoute o v; defaultRoute o])])).
Proof.
  intros (Hcfg & Hlist & Hcreate & Hpatch) Ho Hloc Hfresh.
  pose proof (sidecarLocateOrCreate_created env o c Hlist (Hcreate _) Hloc Hfresh)
    as Hbase.
  destruct (createSidecarVirtualService_from_base env o v _ _ _ Hcfg Hbase)
    as (c2 & -> & Hp); [cbn; unfold GoSort.maxInsertion; lia | apply Hpatch | done |].
  f_equal. revert Hp.
  rewrite virtualServicePatch_last;
    [| apply Hpatch | done | done | by apply sameObject_refl].
  cbn [serverView sidecarBase vs_http app].
  change (mkHTTPRoute (serviceHost o) [] [mkHTTPRouteDestination (serviceHost o) None])
    with (defaultRoute o).
  rewrite !filter_cons, !filter_nil, isPreviewRoute_previewRoute,
    isPreviewRoute_defaultRoute, Ho.
  decide_bools. intros [= <-]. done.
Qed.

(** A later run, for an origin whose table the tool left last in the
    registry: the table is found, extended and patched in place. *)
Lemma later_composition (env : Env) (o v : string) (c : Cluster)
    (vss : list VirtualService) (rs : list HTTPRoute) :
  routingRegistryAnswers env →
  virtualServices c = vss ++ [serverView env (restamped (sidecarBase o) rs)] →
  existsb (sameObject istioNamespace (previewVirtualServiceName o)) vss = false →
  (length rs < GoSort.maxInsertion)%nat →
  createSidecarVirtualService env o v c
  = (Ok tt,
     mkCluster (services c) (deployments c)
       (vss ++ [serverView env
                  (restamped (sidecarBase o)
                     (reverse (filter (λ r, isPreviewRoute r = true)
                                 (rs ++ [previewRoute o v]))
                        ++ filter (λ r, isPreviewRoute r = false)
                             (rs ++ [previewRoute o v])))])).
Proof.
  intros (Hcfg & Hlist & Hcreate & Hpatch) Hc Hfresh Hlen.
  assert (sidecarLocateOrCreate env (Some clientset) o c
          = (Ok (serverView env (restamped (sidecarBase o) rs)), c)) as Hbase.
  { apply sidecarLocateOrCreate_found; [done..|].
    rewrite Hc. by apply locateBase_last. }
  destruct (createSidecarVirtualService_from_base env o v _ _ _ Hcfg Hbase)
    as (c2 & -> & Hp); [done | apply Hpatch | done |].
  f_equal. revert Hp. destruct c as [s d w]. cbn in Hc. subst w.
  rewrite virtualServicePatch_last;
    [| apply Hpatch | done | done | by apply sameObject_refl].
  intros [= <-]. done.
Qed.

(** ** Rearrangement facts about the sorted sequence *)

Section Rearrangement.
Context {A : Type} (p : A → bool).

Lemma marked_first_Permutation (l : list A) :
  reverse (filter (λ x, p x = true) l) ++ filter (λ x, p x = false) l ≡ₚ l.
Proof.
  rewrite reverse_Permutation.
  induction l as [|x l IH]; [done|].
  rewrite !filter_cons. destruct (p x) eqn:Hp.
  - rewrite decide_True, decide_False by done. cbn [app]. by rewrite IH.
  - rewrite decide_False, decide_True by done.
    rewrite <- Permutation_middle. by rewrite IH.
Qed.

Lemma filter_unmarked_of_marked (l : list A) :
  filter (λ x, p x = false) (reverse (filter (λ x, p x = true) l)) = [].
Proof.
  induction l as [|x l IH]; [done|].
  rewrite filter_cons. destruct (p x) eqn:Hp.
  - rewrite decide_True by done.
    rewrite reverse_cons, filter_app, IH, filter_cons, filter_nil.
    by rewrite decide_False by (rewrite Hp; done).
  - by rewrite decide_False by done.
Qed.

Lemma filter_unmarked_idemp (l : list A) :
  filter (λ x, p x = false) (filter (λ x, p x = false) l)
  = filter (λ x, p x = false) l.
Proof.
  induction l as [|x l IH]; [done|].
  rewrite filter_cons. destruct (p x) eqn:Hp.
  - by rewrite decide_False by done.
  - rewrite decide_True by done. rewrite filter_cons, decide_True by done.
    by rewrite IH.
Qed.

(** The unmarked elements of the sorted sequence are those of the input,
    in the input's order. *)
Lemma unmarked_kept (l : list A) :
  filter (λ x, p x = false)
    (reverse (filter (λ x, p x = true) l) ++ filter (λ x, p x = false) l)
  = filter (λ x, p x = false) l.
Proof.
  by rewrite filter_app, filter_unmarked_of_marked, filter_unmarked_idemp.
Qed.
End Rearrangement.

(** ** The search for the shared table: what it finds *)

Lemma locate_hosts (h : string) (i : VirtualService) (hosts : list string)
    (acc : option VirtualService) :
  foldl (λ b h', if bool_decide (h' = h) then Some i else b) acc hosts
  = if bool_decide (h ∈ hosts) then Some i else acc.
Proof.
  revert acc. induction hosts as [|x hosts IH]; intros acc.
  - cbn [foldl]. by rewrite bool_decide_eq_false_2 by apply not_elem_of_nil.
  - cbn [foldl]. rewrite IH. destruct (decide (x = h)) as [->|Hne].
    + rewrite (bool_decide_eq_true_2 (h = h)) by done.
      rewrite (bool_decide_eq_true_2 (h ∈ h :: hosts)) by left.
      by destruct (bool_decide (h ∈ hosts)).
    + rewrite (bool_decide_eq_false_2 (x = h)) by done.
      rewrite (bool_decide_ext (h ∈ x :: hosts) (h ∈ hosts)); [done|].
      rewrite elem_of_cons. split; [intros [Heq|Hin]; [by subst | done] | by right].
Qed.

Lemma locateBase_snoc (h : string) (items : list VirtualService) (x : VirtualService) :
  locateBase h (items ++ [x])
  = if candidate h x then Some x else locateBase h items.
Proof.
  unfold locateBase, candidate. rewrite foldl_app. cbn [foldl].
  rewrite locate_hosts. destruct (vs_gateways x) as [|g gs].
  - rewrite bool_decide_eq_false_2 by (intros H; by apply H).
    by rewrite (bool_decide_eq_true_2 ([] = [])).
  - rewrite bool_decide_eq_true_2 by done.
    by rewrite (bool_decide_eq_false_2 (g :: gs = [])).
Qed.



Lemma candidate_true (h : string) (i : VirtualService) :
  candidate h i = true ↔ vs_gateways i = [] ∧ h ∈ vs_hosts i.
Proof.
  unfold candidate. rewrite andb_true_iff, !bool_decide_eq_true. done.
Qed.


(** ** The sort only rearranges *)






Lemma locateBase_Some_inv (h : string) (items : list VirtualService)
    (b : VirtualService) :
  locateBase h items = Some b → b ∈ items ∧ candidate h b = true.
Proof.
  induction items as [|x items IH] using rev_ind; [done|].
  rewrite locateBase_snoc. destruct (candidate h x) eqn:Hx.
  - intros [= <-]. split; [|done]. apply elem_of_app. right. left.
  - intros Hloc. destruct (IH Hloc) as [Hin Hc]. split; [|done].
    apply elem_of_app. by left.
Qed.

Lemma existsb_elem_of (ns name : string) (vss : list VirtualService)
    (b : VirtualService) :
  b ∈ vss → sameObject ns name b = true → existsb (sameObject ns name) vss = true.
Proof.
  intros Hin Hb. induction Hin as [b vss|b x vss Hin IH]; cbn [existsb].
  - by rewrite Hb.
  - rewrite IH by done. apply orb_true_r.
Qed.

(** The registry after the tool patched its document over the objects of
    that name in [istioNamespace]. *)
Lemma run_on_located_base (env : Env) (o v : string) (c : Cluster)
    (b : VirtualService) (routes : list HTTPRoute) :
  routingRegistryAnswers env →
  locateBase (serviceHost o) (virtualServices c) = Some b →
  sidecarCompose env b o v = Ok (restamped b routes) →
  createSidecarVirtualService env o v c
  = if bool_decide (vs_namespace b = istioNamespace)
    then (Ok tt,
          mkCluster (services c) (deployments c)
            ((λ old, if sameObject istioNamespace (vs_name b) old
                     then serverView env (restamped b routes) else old)
               <$> virtualServices c))
    else (Err namespaceMismatch, c).
Proof.
  intros (Hcfg & Hlist & Hcreate & Hpatch) Hloc Hcompose.
  unfold createSidecarVirtualService. rewrite (newIstioClient_ok env Hcfg).
  rewrite bool_decide_eq_false_2 by (intros H; by apply H).
  unfold bind at 1. rewrite (sidecarLocateOrCreate_found env o c b Hlist Hloc).
  unfold bind at 1, lift. rewrite Hcompose.
  unfold bind, ret, virtualServicePatch. cbn [vs_name vs_namespace restamped].
  rewrite Hpatch. destruct (decide (vs_namespace b = istioNamespace)) as [Hns|Hns].
  - rewrite (bool_decide_eq_false_2 (vs_namespace b ≠ istioNamespace))
      by (intros H; by apply H).
    rewrite (bool_decide_eq_true_2 (vs_namespace b = istioNamespace)) by done.
    destruct (locateBase_Some_inv _ _ _ Hloc) as [Hin _].
    rewrite (existsb_elem_of istioNamespace (vs_name b) _ b Hin)
      by (by apply sameObject_refl).
    done.
  - rewrite (bool_decide_eq_true_2 (vs_namespace b ≠ istioNamespace)) by done.
    by rewrite (bool_decide_eq_false_2 (vs_namespace b = istioNamespace)).
Qed.

(** ** C1: the order of the route table after a composition *)

Lemma two_compositions (env : Env) (o v1 v2 : string) (c : Cluster) :
  routingRegistryAnswers env →
  GoStrings.HasPrefix o previewPrefixName = false →
  locateBase (serviceHost o) (virtualServices c) = None →
  existsb (sameObject istioNamespace (previewVirtualServiceName o))
    (virtualServices c) = false →
  composeAll env o [v1; v2] c
  = (Ok tt,
     mkCluster (services c) (deployments c)
       (virtualServices c
          ++ [serverView env
                (restamped (sidecarBase o)
                   [previewRoute o v2; previewRoute o v1; defaultRoute o])])).
Proof.
  intros Henv Ho Hloc Hfresh. cbn [composeAll]. unfold bind at 1.
  rewrite (first_composition env o v1 c Henv Ho Hloc Hfresh).
  unfold bind at 1.
  erewrite (later_composition env o v2 _ (virtualServices c)
              [previewRoute o v1; defaultRoute o] Henv);
    [| done | done | cbn; unfold GoSort.maxInsertion; lia].
  cbn [app services deployments ret].
  rewrite !filter_cons, !filter_nil, !isPreviewRoute_previewRoute,
    isPreviewRoute_defaultRoute, Ho.
  decide_bools. done.
Qed.

(** C1 (amended). After route composition appends the new preview route to
    a table of fewer than twelve routes, every route whose name starts with
    the reserved prefix precedes every route whose name does not, the routes
    without the prefix keep their relative order, and the prefixed routes
    stand in the reverse of the order they had after the append.  In
    particular, composing versions v1 then v2 for an origin that has no table
    yet and whose name does not start with the prefix leaves the table
    [v2's route; v1's route; default route]. *)
Theorem composition_puts_preview_routes_first :
  (∀ (env : Env) (baseResource : VirtualService) (o v : string),
      (length (vs_http baseResource) < GoSort.maxInsertion)%nat →
      ∃ patched,
        sidecarCompose env baseResource o v = Ok patched
        ∧ vs_http patched
          = reverse (filter (λ r, isPreviewRoute r = true)
                       (vs_http baseResource ++ [previewRoute o v]))
              ++ filter (λ r, isPreviewRoute r = false)
                   (vs_http baseResource ++ [previewRoute o v]))
  ∧ (∀ (env : Env) (o v1 v2 : string) (c : Cluster),
        routingRegistryAnswers env →
        GoStrings.HasPrefix o previewPrefixName = false →
        locateBase (serviceHost o) (virtualServices c) = None →
        existsb (sameObject istioNamespace (previewVirtualServiceName o))
          (virtualServices c) = false →
        ∃ c',
          composeAll env o [v1; v2] c = (Ok tt, c')
          ∧ storedRoutes o c'
            = Some [previewRoute o v2; previewRoute o v1; defaultRoute o]).
Proof.
  split.
  - intros env b o v Hlen. eexists. split; [by apply sidecarCompose_routes | done].
  - intros env o v1 v2 c Henv Ho Hloc Hfresh. eexists. split.
    + by apply two_compositions.
    + unfold storedRoutes. cbn [virtualServices].
      rewrite find_last; [done | done | by apply sameObject_refl].
Qed.

Lemma composition_puts_preview_routes_first_witness :
  (∃ patched,
      sidecarCompose quietEnv (sidecarBase "checkout") "checkout" "42" = Ok patched
      ∧ vs_http patched = [previewRoute "checkout" "42"; defaultRoute "checkout"])
  ∧ (∃ c',
        composeAll quietEnv "checkout" ["1"; "2"] emptyCluster = (Ok tt, c')
        ∧ storedRoutes "checkout" c'
          = Some [previewRoute "checkout" "2"; previewRoute "checkout" "1";
                  defaultRoute "checkout"]).
Proof.
  destruct composition_puts_preview_routes_first as [Hsort Hrun]. split.
  - destruct (Hsort quietEnv (sidecarBase "checkout") "checkout" "42")
      as (p & Hp & Hr).
    + cbn. unfold GoSort.maxInsertion. lia.
    + exists p. split; [exact Hp|]. rewrite Hr. reflexivity.
  - apply (Hrun quietEnv "checkout" "1" "2" emptyCluster).
    + repeat split; reflexivity.
    + reflexivity.
    + reflexivity.
    + reflexivity.
Defined.

(** The claim as stated fails: composing "1" then "2" for origin "checkout"
    stores v2's route before v1's, which is not the stable partition of the
    sequence the sort received. *)
Lemma stable_partition_counterexample :
  ∃ c c',
    createSidecarVirtualService quietEnv "checkout" "1" emptyCluster = (Ok tt, c)
    ∧ createSidecarVirtualService quietEnv "checkout" "2" c = (Ok tt, c')
    ∧ storedRoutes "checkout" c
      = Some [previewRoute "checkout" "1"; defaultRoute "checkout"]
    ∧ storedRoutes "checkout" c'
      = Some [previewRoute "checkout" "2"; previewRoute "checkout" "1";
              defaultRoute "checkout"]
    ∧ stablePartition ([previewRoute "checkout" "1"; defaultRoute "checkout"]
                         ++ [previewRoute "checkout" "2"])
      = [previewRoute "checkout" "1"; previewRoute "checkout" "2";
         defaultRoute "checkout"]
    ∧ [previewRoute "checkout" "2"; previewRoute "checkout" "1";
       defaultRoute "checkout"]
      ≠ stablePartition ([previewRoute "checkout" "1"; defaultRoute "checkout"]
                           ++ [previewRoute "checkout" "2"]).
Proof.
  eexists _, _. split; [vm_compute; reflexivity|].
  split; [vm_compute; reflexivity|].
  split; [vm_compute; reflexivity|].
  split; [vm_compute; reflexivity|].
  split; [vm_compute; reflexivity|].
  intros H. apply (f_equal (fmap route_name)) in H. vm_compute in H. discriminate H.
Qed.

(** An origin whose own name starts with the prefix has a default route that
    counts as prefixed, and it does not stay last. *)
Lemma prefixed_origin_default_not_last :
  ∃ c,
    composeAll quietEnv "profile" ["1"; "2"] emptyCluster = (Ok tt, c)
    ∧ storedRoutes "profile" c
      = Some [previewRoute "profile" "2"; defaultRoute "profile";
              previewRoute "profile" "1"].
Proof. eexists. split; vm_compute; reflexivity. Qed.

(** ** C7: re-running the composition for a version already present *)

(** C7 (amended). Re-running route composition for a version tag whose route
    is already present in the shared routing object (in istio-system, fewer
    than twelve routes) succeeds and stores, in place of that object, one
    that has lost none of the existing routes: its routes are a
    rearrangement of the existing ones plus one more route of this version's
    name, the routes other than this version's are the same ones as before,
    and the routes whose names lack the reserved prefix keep their relative
    order and stand after all the prefixed ones; this version's name then
    occurs at least twice. *)
Theorem rerun_keeps_existing_routes (env : Env) (o v : string) (c : Cluster)
    (b : VirtualService) :
  routingRegistryAnswers env →
  locateBase (serviceHost o) (virtualServices c) = Some b →
  vs_namespace b = istioNamespace →
  route_name (previewRoute o v) ∈ route_name <$> vs_http b →
  (length (vs_http b) < GoSort.maxInsertion)%nat →
  ∃ routes prefixed,
    createSidecarVirtualService env o v c
    = (Ok tt,
       mkCluster (services c) (deployments c)
         ((λ old, if sameObject istioNamespace (vs_name b) old
                  then serverView env (restamped b routes) else old)
            <$> virtualServices c))
    ∧ routes = prefixed ++ filter (λ r, isPreviewRoute r = false) (vs_http b)
    ∧ Forall (λ r, isPreviewRoute r = true) prefixed
    ∧ routes ≡ₚ vs_http b ++ [previewRoute o v]
    ∧ routesOtherThan (route_name (previewRoute o v)) routes
      ≡ₚ routesOtherThan (route_name (previewRoute o v)) (vs_http b)
    ∧ filter (λ r, isPreviewRoute r = false) routes
      = filter (λ r, isPreviewRoute r = false) (vs_http b)
    ∧ (2 ≤ length (filter (λ r, route_name r = route_name (previewRoute o v))
                     routes))%nat.
Proof.
  intros Henv Hloc Hns Hpresent Hlen.
  pose proof (run_on_located_base env o v c b _ Henv Hloc
                (sidecarCompose_routes env b o v Hlen)) as Hrun.
  rewrite bool_decide_eq_true_2 in Hrun by done.
  eexists _, (reverse (filter (λ r, isPreviewRoute r = true)
                         (vs_http b ++ [previewRoute o v]))).
  split; [exact Hrun|].
  assert (filter (λ r, isPreviewRoute r = false) (vs_http b ++ [previewRoute o v])
          = filter (λ r, isPreviewRoute r = false) (vs_http b)) as Hnon.
  { rewrite filter_app, filter_cons, filter_nil.
    rewrite decide_False by (rewrite isPreviewRoute_previewRoute; done).
    by rewrite app_nil_r. }
  assert (reverse (filter (λ r, isPreviewRoute r = true)
                     (vs_http b ++ [previewRoute o v]))
            ++ filter (λ r, isPreviewRoute r = false)
                 (vs_http b ++ [previewRoute o v])
          ≡ₚ vs_http b ++ [previewRoute o v]) as Hperm
    by apply (marked_first_Permutation isPreviewRoute).
  split; [by rewrite Hnon|]. split; [|split; [exact Hperm|split; [|split]]].
  - apply Forall_reverse, Forall_forall. intros r Hr.
    by apply list_elem_of_filter in Hr as [Hr _].
  - unfold routesOtherThan. rewrite Hperm, filter_app, filter_cons, filter_nil.
    rewrite decide_False by (intros H; by apply H). by rewrite app_nil_r.
  - by rewrite (unmarked_kept isPreviewRoute).
  - rewrite Hperm, filter_app, filter_cons, filter_nil, decide_True by done.
    rewrite length_app. cbn [length].
    apply list_elem_of_fmap in Hpresent as (r & Hname & Hr).
    assert (r ∈ filter (λ r, route_name r = route_name (previewRoute o v)) (vs_http b))
      as Hin by (apply list_elem_of_filter; done).
    destruct (filter (λ r, route_name r = route_name (previewRoute o v)) (vs_http b));
      [by apply elem_of_nil in Hin | cbn; lia].
Qed.

Lemma rerun_keeps_existing_routes_witness :
  ∃ routes,
    createSidecarVirtualService quietEnv "checkout" "42"
      (mkCluster [] []
         [restamped (sidecarBase "checkout")
            [previewRoute "checkout" "42"; defaultRoute "checkout"]])
    = (Ok tt,
       mkCluster [] []
         [serverView quietEnv (restamped (sidecarBase "checkout") routes)])
    ∧ routes
      ≡ₚ [previewRoute "checkout" "42"; defaultRoute "checkout"]
           ++ [previewRoute "checkout" "42"]
    ∧ filter (λ r, isPreviewRoute r = false) routes = [defaultRoute "checkout"].
Proof.
  destruct (rerun_keeps_existing_routes quietEnv "checkout" "42"
              (mkCluster [] [] [restamped (sidecarBase "checkout")
                                  [previewRoute "checkout" "42";
                                   defaultRoute "checkout"]])
              (restamped (sidecarBase "checkout")
                 [previewRoute "checkout" "42"; defaultRoute "checkout"]))
    as (routes & prefixed & Hrun & _ & _ & Hperm & _ & Hkeep & _).
  - repeat split; reflexivity.
  - reflexivity.
  - reflexivity.
  - vm_compute. left.
  - cbn. unfold GoSort.maxInsertion. lia.
  - exists routes. split; [exact Hrun|]. split; [exact Hperm|].
    rewrite Hkeep. reflexivity.
Defined.

(** The claim as stated fails: after composing "1", "2", "3" for origin
    "checkout", re-running "3" swaps the routes of "1" and "2", which have
    nothing to do with version "3". *)
Lemma rerun_reorders_counterexample :
  ∃ c c',
    composeAll quietEnv "checkout" ["1"; "2"; "3"] emptyCluster = (Ok tt, c)
    ∧ createSidecarVirtualService quietEnv "checkout" "3" c = (Ok tt, c')
    ∧ storedRoutes "checkout" c
      = Some [previewRoute "checkout" "3"; previewRoute "checkout" "1";
              previewRoute "checkout" "2"; defaultRoute "checkout"]
    ∧ routesOtherThan (route_name (previewRoute "checkout" "3"))
        <$> storedRoutes "checkout" c
      = Some [previewRoute "checkout" "1"; previewRoute "checkout" "2";
              defaultRoute "checkout"]
    ∧ routesOtherThan (route_name (previewRoute "checkout" "3"))
        <$> storedRoutes "checkout" c'
      = Some [previewRoute "checkout" "2"; previewRoute "checkout" "1";
              defaultRoute "checkout"]
    ∧ routesOtherThan (route_name (previewRoute "checkout" "3"))
        <$> storedRoutes "checkout" c'
      ≠ routesOtherThan (route_name (previewRoute "checkout" "3"))
          <$> storedRoutes "checkout" c.
Proof.
  eexists _, _. split; [vm_compute; reflexivity|].
  split; [vm_compute; reflexivity|].
  split; [vm_compute; reflexivity|].
  split; [vm_compute; reflexivity|].
  split; [vm_compute; reflexivity|].
  intros H. apply (f_equal (fmap (fmap route_name))) in H.
  vm_compute in H. discriminate H.
Qed.

(** ** C6: the table is created once and extended afterwards *)





(** ** C5 and C10: the selector and the label rewrite of [createService] *)

Lemma newK8sClient_ok (env : Env) :
  env_k8sConfig env = None → newK8sClient env = (Some clientset, None).
Proof. unfold newK8sClient. by intros ->. Qed.

Lemma findService_absent (name : string) (items : list Service) :
  name ∉ svc_name <$> items → findService name items = zeroService.
Proof.
  induction items as [|x items IH]; [done|].
  cbn [fmap list_fmap findService]. intros Hn.
  apply not_elem_of_cons in Hn as [Hx Hrest].
  rewrite bool_decide_eq_false_2 by done. by apply IH.
Qed.

Lemma rangeSelector_noEntries (m : GoMap) : noEntries m → rangeSelector m = None.
Proof.
  intros [->| ->]; [done|]. unfold rangeSelector, mapRange.
  by rewrite map_to_list_empty.
Qed.

(** The loop leaves a selector whenever the map has an entry. *)
Lemma rangeSelector_entries (g : gmap string string) :
  g ≠ ∅ → ∃ selector, rangeSelector (Some g) = Some selector.
Proof.
  intros Hg. unfold rangeSelector, mapRange.
  destruct (map_to_list g) as [|kv l] eqn:Hl using rev_ind.
  - by apply map_to_list_empty_iff in Hl.
  - rewrite foldl_app. cbn [foldl]. by eexists.
Qed.

Lemma createService_no_selector (env : Env) (name version : string) (c : Cluster) :
  env_k8sConfig env = None →
  env_listServices env = None →
  rangeSelector (svc_selector (findService name (services c))) = None →
  createService env name version c = (Err (SelectorNotFound name), c).
Proof.
  intros Hcfg Hlist Hsel. unfold createService.
  rewrite (newK8sClient_ok env Hcfg).
  unfold bind, lift, deref, listServices. rewrite Hlist, Hsel. done.
Qed.

(** C5. For every origin service whose declared selector map is empty, and
    likewise when the named origin service is absent, [createService] returns
    the selector-not-found error, and so does the whole operation, with the
    cluster left as it was: no preview Service, Deployment or route is
    created. *)
Theorem no_selector_no_resources (env : Env) (cmd : cmdCreate) (c : Cluster) :
  env_k8sConfig env = None →
  env_listServices env = None →
  originService cmd ∉ svc_name <$> services c
  ∨ noEntries (svc_selector (findService (originService cmd) (services c))) →
  createService env (originService cmd) (previewVersion cmd) c
  = (Err (SelectorNotFound (originService cmd)), c)
  ∧ cmdCreate_RunE env cmd c = (Err (SelectorNotFound (originService cmd)), c).
Proof.
  intros Hcfg Hlist Hsel.
  assert (createService env (originService cmd) (previewVersion cmd) c
          = (Err (SelectorNotFound (originService cmd)), c)) as Hcreate.
  { apply createService_no_selector; [done..|].
    apply rangeSelector_noEntries. destruct Hsel as [Habsent|Hempty]; [|done].
    rewrite findService_absent by done. by left. }
  split; [exact Hcreate|].
  unfold cmdCreate_RunE, bind at 1. by rewrite Hcreate.
Qed.

Lemma no_selector_no_resources_witness :
  cmdCreate_RunE quietEnv
    (mkCmdCreate "checkout" "42" "my-gateway" "pr42.example.com")
    (mkCluster [mkService "checkout" "7" (Some {[ "app" := "checkout" ]}) (Some ∅)]
       [] [])
  = (Err (SelectorNotFound "checkout"),
     mkCluster [mkService "checkout" "7" (Some {[ "app" := "checkout" ]}) (Some ∅)]
       [] []).
Proof.
  apply (no_selector_no_resources quietEnv
           (mkCmdCreate "checkout" "42" "my-gateway" "pr42.example.com")).
  - reflexivity.
  - reflexivity.
  - right. right. reflexivity.
Defined.

(** C10. [createService] succeeds only for an origin service whose label map
    is non-nil: once the origin service and its selector pair are found, the
    preview-tagged value is written into the copy's label map without a
    guard, so an origin service that declares a selector but carries no
    labels ends the call in a nil-map assignment panic, not in a returned
    error, and nothing is created. *)
Theorem createService_needs_labels (env : Env) (name version : string) (c : Cluster) :
  (∀ selector c',
      createService env name version c = (Ok selector, c') →
      svc_labels (findService name (services c)) ≠ None)
  ∧ (∀ g,
        env_k8sConfig env = None →
        env_listServices env = None →
        svc_selector (findService name (services c)) = Some g →
        g ≠ ∅ →
        svc_labels (findService name (services c)) = None →
        createService env name version c = (Panic NilMapAssignment, c)).
Proof.
  split.
  - intros selector c' Hrun Hnil. revert Hrun. unfold createService.
    destruct (newK8sClient env) as [cs [e|]]; [done|].
    unfold bind, lift, deref, listServices.
    destruct cs; [|done]. destruct (env_listServices env); [done|].
    destruct (rangeSelector _); [|done]. by rewrite Hnil.
  - intros g Hcfg Hlist Hsel Hg Hnil. unfold createService.
    rewrite (newK8sClient_ok env Hcfg).
    unfold bind, lift, deref, listServices. rewrite Hlist, Hsel.
    destruct (rangeSelector_entries g Hg) as [selector ->].
    by rewrite Hnil.
Qed.

Lemma createService_needs_labels_witness :
  createService quietEnv "checkout" "42"
    (mkCluster [mkService "checkout" "7" None (Some {[ "app" := "checkout" ]})] [] [])
  = (Panic NilMapAssignment,
     mkCluster [mkService "checkout" "7" None (Some {[ "app" := "checkout" ]})] [] []).
Proof.
  apply (createService_needs_labels quietEnv "checkout" "42"
           (mkCluster [mkService "checkout" "7" None (Some {[ "app" := "checkout" ]})]
              [] [])
           ) with (g := {[ "app" := "checkout" ]}).
  - reflexivity.
  - reflexivity.
  - reflexivity.
  - intros H. vm_compute in H. discriminate H.
  - reflexivity.
Defined.

(** ** C2: the error of the routing-registry client *)

Lemma sidecar_client_error_panics (env : Env) (o v : string) (c : Cluster) (e : Error) :
  env_istioConfig env = Some e →
  createSidecarVirtualService env o v c = (Panic NilPointerDereference, c).
Proof.
  intros Hcfg. unfold createSidecarVirtualService, newIstioClient.
  rewrite Hcfg. rewrite bool_decide_eq_false_2 by (intros H; by apply H). done.
Qed.

Lemma gateway_client_error_panics (env : Env) (url gateway o v : string)
    (c : Cluster) (e : Error) :
  env_istioConfig env = Some e →
  createGatewayVirtualService env url gateway o v c = (Panic NilPointerDereference, c).
Proof.
  intros Hcfg. unfold createGatewayVirtualService, newIstioClient.
  rewrite Hcfg. rewrite bool_decide_eq_false_2 by (intros H; by apply H). done.
Qed.

(** C2, at the failing input. When the routing-registry client cannot be
    built, neither [createSidecarVirtualService] nor
    [createGatewayVirtualService] returns the error: the guard compares the
    error with itself, the call goes on with a nil client and panics.  The
    workload stages, whose guard compares with nil, do return theirs. *)
Theorem istio_client_error_is_not_returned :
  createSidecarVirtualService noIstioClientEnv "checkout" "42" emptyCluster
  = (Panic NilPointerDereference, emptyCluster)
  ∧ createGatewayVirtualService noIstioClientEnv "pr42.example.com" "my-gateway"
      "checkout" "42" emptyCluster
    = (Panic NilPointerDereference, emptyCluster)
  ∧ createService
      (mkEnv (Some (Remote "no config")) None None (λ _, None) None (λ _, None)
         None (λ _, None) (λ _, None) EmptyString EmptyString [])
      "checkout" "42" emptyCluster
    = (Err (Remote "no config"), emptyCluster).
Proof.
  split; [by eapply sidecar_client_error_panics|].
  split; [by eapply gateway_client_error_panics|]. reflexivity.
Qed.

(** ** C4: cloning when no workload matches the selector *)

Lemma findDeploy_none (selector : deploySelector) (items : list Deployment) :
  (∀ d, d ∈ items →
        ∃ ls, dep_selector d = Some ls
              ∧ mapLookup (matchLabels ls) (key selector) ≠ Some (value selector)) →
  findDeploy selector items = Ok zeroDeployment.
Proof.
  induction items as [|d items IH]; intros Hnone; [done|].
  destruct (Hnone d) as (ls & Hls & Hne); [left|].
  cbn [findDeploy]. rewrite Hls. cbn [deref rbind].
  destruct (mapLookup (matchLabels ls) (key selector)) as [val|] eqn:Hval.
  - rewrite bool_decide_eq_false_2 by congruence.
    apply IH. intros d' Hd'. apply Hnone. by right.
  - apply IH. intros d' Hd'. apply Hnone. by right.
Qed.

Lemma createDeploy_no_match_panics (env : Env) (selector : deploySelector)
    (version : string) (c : Cluster) :
  env_k8sConfig env = None →
  env_listDeployments env = None →
  (∀ d, d ∈ deployments c →
        ∃ ls, dep_selector d = Some ls
              ∧ mapLookup (matchLabels ls) (key selector) ≠ Some (value selector)) →
  createDeploy env selector version c = (Panic NilPointerDereference, c).
Proof.
  intros Hcfg Hlist Hnone. unfold createDeploy.
  rewrite (newK8sClient_ok env Hcfg).
  unfold bind, lift, deref, listDeployments. rewrite Hlist.
  by rewrite (findDeploy_none selector _ Hnone).
Qed.

(** C4, at the failing input. With selector pair (app, checkout) and a
    registry whose only Deployment is labelled app=cart, [createDeploy] does
    not submit a clone of the zero-value template: the template's selector
    pointer is nil, the match-label rewrite dereferences it, and the call
    panics with the registry unchanged. *)
Theorem createDeploy_without_match_panics :
  createDeploy quietEnv (mkDeploySelector "app" "checkout") "42"
    (mkCluster []
       [mkDeployment "cart" "3" (Some (mkLabelSelector (Some {[ "app" := "cart" ]})))
          (Some {[ "app" := "cart" ]})] [])
  = (Panic NilPointerDereference,
     mkCluster []
       [mkDeployment "cart" "3" (Some (mkLabelSelector (Some {[ "app" := "cart" ]})))
          (Some {[ "app" := "cart" ]})] [])
  ∧ createDeploy quietEnv (mkDeploySelector "app" "checkout") "42" emptyCluster
    = (Panic NilPointerDereference, emptyCluster).
Proof.
  split.
  - apply createDeploy_no_match_panics; [done..|].
    intros d Hd. apply list_elem_of_singleton in Hd. subst d.
    eexists. split; [reflexivity|]. vm_compute. discriminate.
  - apply createDeploy_no_match_panics; [done..|].
    intros d Hd. by apply elem_of_nil in Hd.
Qed.

(** ** C8: the gateway's header value and the sidecar's header match *)

(** C8. For every origin name and version tag, the value the gateway route
    adds to header X-PREVIEW is [previewName origin version]; the preview
    route's only condition on that header is a prefix match on
    [previewName EmptyString version]; and the former has the latter as a
    string prefix, so the condition holds for the stamped value. *)
Theorem gateway_header_satisfies_sidecar_match (url gateway origin version : string) :
  stampedHeader (gatewayVirtualService url gateway origin version) previewHeader
  = [previewName origin version]
  ∧ headerConditions (previewRoute origin version) previewHeader
    = [StringMatch_Prefix (previewName EmptyString version)]
  ∧ route_match (previewRoute origin version)
    = [mkHTTPMatchRequest
         {[ previewHeader := StringMatch_Prefix (previewName EmptyString version) ]}]
  ∧ GoStrings.HasPrefix (previewName origin version) (previewName EmptyString version)
    = true
  ∧ stringMatchHolds (StringMatch_Prefix (previewName EmptyString version))
      (previewName origin version)
    = Some true.
Proof.
  assert (GoStrings.HasPrefix (previewName origin version)
            (previewName EmptyString version) = true) as Hprefix.
  { unfold previewName.
    rewrite !HasPrefix_app_both.
    change ("-" +:+ origin) with (String "-"%char origin).
    done. }
  split; [reflexivity|]. split; [reflexivity|]. split; [reflexivity|].
  split; [exact Hprefix|].
  cbn [stringMatchHolds]. by rewrite Hprefix.
Qed.

(** ** C9: the flags of the create subcommand *)

(** C9, at the failing input. The declaration marks only --version and
    --service as required: the third mark names a flag that does not exist,
    so a command line without --url passes the required-flag check and the
    stages run with an empty URL.  Omitting --version or --service is
    rejected, and --gateway defaults to my-gateway. *)
Theorem url_flag_is_not_required :
  requiredFlags (cmdCreate_New zeroCmdCreate).1 = ["version"; "service"]
  ∧ (Cobra.MarkFlagRequired "previewURL" (cmdCreate_New zeroCmdCreate).1).2
    = Some (Remote "no such flag -previewURL")
  ∧ Cobra.validateRequiredFlags (Cobra.cmd_flags (cmdCreate_New zeroCmdCreate).1)
      [("version", "42"); ("service", "checkout")]
    = Ok tt
  ∧ execute quietEnv [("version", "42"); ("service", "checkout")] emptyCluster
    = cmdCreate_RunE quietEnv (mkCmdCreate "checkout" "42" "my-gateway" EmptyString)
        emptyCluster
  ∧ execute quietEnv [("service", "checkout"); ("url", "pr42.example.com")] emptyCluster
    = (Err (MissingFlags ["version"]), emptyCluster)
  ∧ execute quietEnv [("version", "42"); ("url", "pr42.example.com")] emptyCluster
    = (Err (MissingFlags ["service"]), emptyCluster)
  ∧ previewGateway (cmdCreate_New zeroCmdCreate).2 = "my-gateway".
Proof. repeat split; vm_compute; reflexivity. Qed.


(** * Further properties of the code *)

(** ** The naming codec beyond the round trip *)

Lemma HasPrefix_true (s p : string) :
  GoStrings.HasPrefix s p = true → ∃ t, s = p +:+ t.
Proof.
  revert s. induction p as [|c p IH]; intros s Hp.
  - by exists s.
  - destruct s as [|d s]; [done|]. cbn [GoStrings.HasPrefix] in Hp.
    apply andb_true_iff in Hp as [Hc Hs]. apply bool_decide_eq_true in Hc.
    destruct (IH s Hs) as [t ->]. exists t. by subst d.
Qed.

Lemma HasPrefix_take (s : string) (n : nat) :
  GoStrings.HasPrefix s (GoStrings.take n s) = true.
Proof.
  revert s. induction n as [|n IH]; intros s; [done|].
  destruct s as [|c s]; [done|]. cbn [GoStrings.take GoStrings.HasPrefix].
  rewrite bool_decide_eq_true_2 by done. apply IH.
Qed.

Lemma HasPrefix_refl (s : string) : GoStrings.HasPrefix s s = true.
Proof.
  induction s as [|c s IH]; [done|]. cbn [GoStrings.HasPrefix].
  by rewrite bool_decide_eq_true_2.
Qed.

(** What precedes the first occurrence of a one-byte separator is free of it. *)
Lemma Index_take_first (c : Ascii.ascii) (s : string) :
  0 ≤ GoStrings.Index s (String c EmptyString) →
  GoStrings.Index
    (GoStrings.take (Z.to_nat (GoStrings.Index s (String c EmptyString))) s)
    (String c EmptyString) = -1.
Proof.
  induction s as [|d s IH]; cbn [GoStrings.Index GoStrings.HasPrefix].
  - lia.
  - rewrite andb_true_r. destruct (bool_decide (c = d)) eqn:Hcd; [done|].
    pose proof (Index_lower s (String c EmptyString)) as Hlo.
    destruct (Z.ltb_spec (GoStrings.Index s (String c EmptyString)) 0) as [Hneg|Hpos];
      [lia|].
    intros _. rewrite Z2Nat.inj_add, Nat.add_1_r by lia.
    cbn [GoStrings.take GoStrings.Index GoStrings.HasPrefix].
    rewrite andb_true_r, Hcd, IH by done. done.
Qed.

(** The first occurrence of a one-byte separator cuts the string in what
    precedes it, the separator, and a rest. *)
Lemma Index_cut (c : Ascii.ascii) (s : string) :
  0 ≤ GoStrings.Index s (String c EmptyString) →
  ∃ rest,
    s = GoStrings.take (Z.to_nat (GoStrings.Index s (String c EmptyString))) s
          +:+ String c rest.
Proof.
  induction s as [|d s IH]; cbn [GoStrings.Index GoStrings.HasPrefix].
  - lia.
  - rewrite andb_true_r. destruct (bool_decide (c = d)) eqn:Hcd.
    + intros _. apply bool_decide_eq_true in Hcd. subst d. by exists s.
    + pose proof (Index_lower s (String c EmptyString)) as Hlo.
      destruct (Z.ltb_spec (GoStrings.Index s (String c EmptyString)) 0) as [Hneg|Hpos];
        [lia|].
      intros _. destruct (IH Hpos) as [rest Hrest]. exists rest.
      rewrite Z2Nat.inj_add, Nat.add_1_r by lia.
      cbn [GoStrings.take]. rewrite app_String. by rewrite <- Hrest.
Qed.

(** The first element of a split at a one-byte separator, when at least one
    cut is allowed: it is free of the separator, and the string is either
    that element alone or that element, the separator and a rest. *)
Lemma splitLoop_head (k : nat) (s : string) (c : Ascii.ascii) :
  ∃ v tl,
    GoStrings.splitLoop (S k) s (String c EmptyString) = v :: tl
    ∧ GoStrings.Contains v (String c EmptyString) = false
    ∧ (s = v ∨ ∃ rest, s = v +:+ String c rest).
Proof.
  cbn [GoStrings.splitLoop].
  destruct (Z.ltb_spec (GoStrings.Index s (String c EmptyString)) 0) as [Hneg|Hpos].
  - exists s, []. split; [done|]. split; [|by left].
    unfold GoStrings.Contains. by apply Z.leb_gt.
  - eexists _, _. split; [done|]. split.
    + unfold GoStrings.Contains. rewrite Index_take_first by done. done.
    + right. by apply Index_cut.
Qed.

Lemma string_app_assoc (a b c : string) : (a +:+ b) +:+ c = a +:+ (b +:+ c).
Proof.
  induction a as [|d a IH]; [done|]. rewrite !app_String. by rewrite IH.
Qed.

(** X1. [getVersionFromPreview] returns on every input, never panicking on
    its slice or its index: a string without the reserved prefix comes back
    unchanged; for a string with it the result is free of the separator and
    is what the string carries between the prefix and its first separator,
    or up to its end when no separator follows. *)
Theorem getVersionFromPreview_returns (s : string) :
  ∃ v,
    getVersionFromPreview s = Ok v
    ∧ if GoStrings.HasPrefix s previewPrefixName
      then GoStrings.Contains v "-" = false
           ∧ (s = previewPrefixName +:+ v
              ∨ ∃ rest, s = previewPrefixName +:+ v +:+ "-" +:+ rest)
      else v = s.
Proof.
  unfold getVersionFromPreview.
  destruct (GoStrings.HasPrefix s previewPrefixName) eqn:Hp; cbn [negb];
    [|by exists s].
  destruct (HasPrefix_true _ _ Hp) as [rest ->].
  rewrite sliceFrom_app. cbn [rbind]. unfold GoStrings.SplitN.
  change (2 =? 0) with false. cbn iota. rewrite bool_decide_eq_false_2 by done.
  change (2 <? 0) with false. cbn [orb].
  destruct (Z.ltb_spec (GoStrings.len rest + 1) 2) as [Hshort|Hlong].
  - assert (rest = EmptyString) as ->.
    { destruct rest; [done|]. unfold GoStrings.len in Hshort.
      cbn [String.length] in Hshort. lia. }
    exists EmptyString. cbn. split; [done|]. split; [done|by left].
  - change (Z.to_nat (2 - 1)) with 1%nat.
    destruct (splitLoop_head 0 rest "-"%char) as (v & tl & Hsplit & Hfree & Hcut).
    change (String "-"%char EmptyString) with "-" in Hsplit. rewrite Hsplit.
    exists v. cbn [rbind GoStrings.index lookup list_lookup]. split; [done|].
    split; [exact Hfree|].
    destruct Hcut as [->|[tl' ->]]; [by left|]. right. by exists tl'.
Qed.

(** X2. A version tag that contains the separator does not survive the round
    trip: decoding the preview name gives back only what stands before the
    tag's first separator, whatever the origin name is. *)
Theorem decode_cuts_version_at_separator (n a b : string) :
  GoStrings.Contains a "-" = false →
  getVersionFromPreview (previewName n (a +:+ "-" +:+ b)) = Ok a.
Proof.
  intros Ha. unfold getVersionFromPreview.
  rewrite previewName_has_prefix. cbn [negb].
  unfold previewName. rewrite sliceFrom_app. cbn [rbind].
  rewrite string_app_assoc.
  change (("-" +:+ b) +:+ "-" +:+ n) with (String "-"%char (b +:+ "-" +:+ n)).
  by rewrite (SplitN_first "-"%char a _ Ha).
Qed.

Lemma decode_cuts_version_at_separator_witness :
  getVersionFromPreview (previewName "checkout" "42-rc1") = Ok "42".
Proof. by apply (decode_cuts_version_at_separator "checkout" "42" "rc1"). Defined.

(** X3. On version tags free of the separator the encoding is injective:
    two preview names are equal only for the same origin and the same
    version. *)
Theorem previewName_injective (o o' v v' : string) :
  GoStrings.Contains v "-" = false →
  GoStrings.Contains v' "-" = false →
  previewName o v = previewName o' v' →
  o = o' ∧ v = v'.
Proof.
  intros Hv Hv' Heq.
  assert (v = v') as <-.
  { pose proof (getVersionFromPreview_previewName o v Hv) as H1.
    pose proof (getVersionFromPreview_previewName o' v' Hv') as H2.
    rewrite Heq in H1. congruence. }
  split; [|done]. unfold previewName in Heq.
  by do 3 apply String.app_inj in Heq.
Qed.

Lemma previewName_injective_witness :
  previewName "checkout" "42" = previewName "checkout" "42"
  ∧ "checkout" = "checkout" ∧ "42" = "42".
Proof.
  split; [reflexivity|].
  apply (previewName_injective "checkout" "checkout" "42" "42"); reflexivity.
Defined.

(** ** The workload stages: what a run writes *)

Lemma findService_cases (name : string) (items : list Service) :
  findService name items = zeroService
  ∨ (findService name items ∈ items ∧ svc_name (findService name items) = name).
Proof.
  induction items as [|x items IH]; [by left|]. cbn [findService].
  destruct (bool_decide (svc_name x = name)) eqn:Hx.
  - right. split; [left | by apply bool_decide_eq_true in Hx].
  - destruct IH as [IH|[Hin Hname]]; [by left|]. right. split; [by right | done].
Qed.

(** A service found in a list is still the one found after an append. *)
Lemma findService_app (name : string) (items more : list Service) :
  findService name items ≠ zeroService →
  findService name (items ++ more) = findService name items.
Proof.
  induction items as [|x items IH]; [done|]. cbn [app findService].
  destruct (bool_decide (svc_name x = name)); [done|]. exact IH.
Qed.

Lemma rangeSelector_Some (m : GoMap) (selector : deploySelector) :
  rangeSelector m = Some selector →
  ∃ g, m = Some g ∧ g !! key selector = Some (value selector).
Proof.
  destruct m as [g|]; [|done]. unfold rangeSelector, mapRange. intros Hsel.
  exists g. split; [done|]. apply elem_of_map_to_list.
  revert Hsel. generalize (map_to_list g). intros l.
  induction l as [|kv l IH] using rev_ind; [done|].
  rewrite foldl_app. cbn [foldl]. intros [= <-]. cbn [key value].
  apply elem_of_app. right. destruct kv. left.
Qed.

(** What a successful [createService] has read and written. *)
Lemma createService_Ok_inv (env : Env) (name version : string) (c c' : Cluster)
    (selector : deploySelector) :
  createService env name version c = (Ok selector, c') →
  ∃ origin labels sel,
    origin = findService name (services c)
    ∧ origin ∈ services c ∧ svc_name origin = name
    ∧ svc_labels origin = Some labels ∧ svc_selector origin = Some sel
    ∧ sel !! key selector = Some (value selector)
    ∧ env_k8sConfig env = None ∧ env_listServices env = None
    ∧ env_createService env (previewName name version) = None
    ∧ (previewName name version ∉ svc_name <$> services c)
    ∧ c' = mkCluster
             (services c ++ [previewService origin selector version labels sel])
             (deployments c) (virtualServices c).
Proof.
  unfold createService, newK8sClient.
  destruct (env_k8sConfig env) as [e|] eqn:Hcfg; [done|].
  unfold bind, lift, deref, listServices.
  destruct (env_listServices env) as [e|] eqn:Hlist; [done|].
  destruct (rangeSelector _) as [s|] eqn:Hsel; [|done].
  destruct (rangeSelector_Some _ _ Hsel) as (sel & Hmap & Hentry).
  destruct (findService_cases name (services c)) as [Hzero|[Hin Hname]].
  { rewrite Hzero in Hmap. done. }
  destruct (svc_labels (findService name (services c))) as [labels|] eqn:Hlabels;
    [|done].
  rewrite Hmap. cbn [mapAssign]. unfold serviceCreate. cbn [svc_name].
  rewrite Hname.
  destruct (env_createService env (previewName name version)) eqn:Hcreate; [done|].
  destruct (bool_decide (previewName name version ∈ svc_name <$> services c)) eqn:Hfresh;
    [done|].
  apply bool_decide_eq_false in Hfresh. unfold ret. intros [= <- <-].
  exists (findService name (services c)), labels, sel.
  unfold previewService. rewrite Hname. done.
Qed.

(** X4. A successful [createService] has found the named origin service with
    a label map and a selector map, returns one entry of that selector map,
    and appends exactly one Service: named [previewName name version], with
    an empty resource version and with the returned key set to the
    preview-tagged value in both its labels and its selector.  Nothing else
    in the cluster changes, and no Service of that name existed before. *)
Theorem createService_appends_clone (env : Env) (name version : string)
    (c c' : Cluster) (selector : deploySelector) :
  createService env name version c = (Ok selector, c') →
  ∃ origin labels sel,
    origin ∈ services c ∧ svc_name origin = name
    ∧ svc_labels origin = Some labels ∧ svc_selector origin = Some sel
    ∧ sel !! key selector = Some (value selector)
    ∧ (previewName name version ∉ svc_name <$> services c)
    ∧ c' = mkCluster
             (services c
                ++ [mkService (previewName name version) EmptyString
                      (Some (<[key selector := previewName (value selector) version]>
                               labels))
                      (Some (<[key selector := previewName (value selector) version]>
                               sel))])
             (deployments c) (virtualServices c).
Proof.
  intros Hrun.
  destruct (createService_Ok_inv _ _ _ _ _ _ Hrun)
    as (origin & labels & sel & _ & Hin & Hname & Hl & Hs & He & _ & _ & _ & Hf & ->).
  exists origin, labels, sel. unfold previewService. rewrite Hname. done.
Qed.

Lemma createService_appends_clone_witness :
  ∃ origin labels sel,
    origin ∈ [mkService "checkout" "7" (Some {[ "app" := "checkout" ]})
                (Some {[ "app" := "checkout" ]})]
    ∧ svc_name origin = "checkout"
    ∧ svc_labels origin = Some labels ∧ svc_selector origin = Some sel
    ∧ sel !! "app" = Some "checkout".
Proof.
  destruct (createService_appends_clone quietEnv "checkout" "42"
              (mkCluster [mkService "checkout" "7" (Some {[ "app" := "checkout" ]})
                            (Some {[ "app" := "checkout" ]})] [] [])
              (mkCluster [mkService "checkout" "7" (Some {[ "app" := "checkout" ]})
                            (Some {[ "app" := "checkout" ]});
                          mkService "pr42-checkout" EmptyString
                            (Some {[ "app" := "pr42-checkout" ]})
                            (Some {[ "app" := "pr42-checkout" ]})] [] [])
              (mkDeploySelector "app" "checkout"))
    as (origin & labels & sel & H1 & H2 & H3 & H4 & H5 & _).
  - vm_compute. reflexivity.
  - exists origin, labels, sel. repeat split; assumption.
Defined.

Lemma findDeploy_Ok_inv (selector : deploySelector) (items : list Deployment)
    (d : Deployment) :
  findDeploy selector items = Ok d →
  d = zeroDeployment
  ∨ (d ∈ items
     ∧ ∃ ls, dep_selector d = Some ls
             ∧ mapLookup (matchLabels ls) (key selector) = Some (value selector)).
Proof.
  induction items as [|x items IH]; cbn [findDeploy].
  - intros [= <-]. by left.
  - destruct (dep_selector x) as [ls|] eqn:Hls; [|done]. cbn [deref rbind].
    destruct (mapLookup (matchLabels ls) (key selector)) as [val|] eqn:Hval.
    + destruct (bool_decide (val = value selector)) eqn:Hv.
      * apply bool_decide_eq_true in Hv. subst val. intros [= <-].
        right. split; [left|]. by exists ls.
      * intros Hd. destruct (IH Hd) as [?|[Hin Hrest]]; [by left|].
        right. split; [by right | done].
    + intros Hd. destruct (IH Hd) as [?|[Hin Hrest]]; [by left|].
      right. split; [by right | done].
Qed.

(** X5. A successful [createDeploy] has found a Deployment whose match-labels
    carry the selector pair, and appends exactly one Deployment: named
    [previewName] of the found one's name, with an empty resource version,
    with the selector key of its match-labels set to the preview-tagged
    value, and with its pod-template labels rewritten for that key only when
    the template already had it.  Nothing else in the cluster changes. *)
Theorem createDeploy_appends_clone (env : Env) (selector : deploySelector)
    (version : string) (c c' : Cluster) :
  createDeploy env selector version c = (Ok tt, c') →
  ∃ d ls ml,
    d ∈ deployments c
    ∧ dep_selector d = Some ls ∧ matchLabels ls = Some ml
    ∧ ml !! key selector = Some (value selector)
    ∧ c' = mkCluster (services c)
             (deployments c
                ++ [mkDeployment (previewName (dep_name d) version) EmptyString
                      (Some (mkLabelSelector
                               (Some (<[key selector
                                        := previewName (value selector) version]> ml))))
                      (match mapLookup (dep_templateLabels d) (key selector) with
                       | Some _ =>
                           insert (key selector) (previewName (value selector) version)
                             <$> dep_templateLabels d
                       | None => dep_templateLabels d
                       end)])
             (virtualServices c).
Proof.
  unfold createDeploy, newK8sClient.
  destruct (env_k8sConfig env) as [e|]; [done|].
  unfold bind, lift, deref, listDeployments.
  destruct (env_listDeployments env) as [e|]; [done|].
  destruct (findDeploy selector (deployments c)) as [d| | |] eqn:Hfind; [|done..].
  destruct (findDeploy_Ok_inv _ _ _ Hfind) as [->|(Hin & ls & Hls & Hval)]; [done|].
  rewrite Hls. destruct (matchLabels ls) as [ml|] eqn:Hml; [|done].
  cbn [mapAssign mapLookup] in *.
  assert (∃ tl, (match mapLookup (dep_templateLabels d) (key selector) with
                 | Some _ => mapAssign (dep_templateLabels d) (key selector)
                               (previewName (value selector) version)
                 | None => Ok (dep_templateLabels d)
                 end) = Ok tl
                ∧ tl = match mapLookup (dep_templateLabels d) (key selector) with
                       | Some _ =>
                           insert (key selector) (previewName (value selector) version)
                             <$> dep_templateLabels d
                       | None => dep_templateLabels d
                       end) as (tl & -> & Htl).
  { destruct (dep_templateLabels d) as [g|]; cbn [mapLookup mapAssign];
      [|by eexists]. destruct (g !! key selector); by eexists. }
  unfold deploymentCreate. cbn [dep_name].
  destruct (env_createDeployment env _); [done|].
  destruct (bool_decide _); [done|]. unfold ret. intros [= <-].
  exists d, ls, ml. rewrite <- Htl. done.
Qed.

Lemma createDeploy_appends_clone_witness :
  ∃ d ls ml,
    d ∈ [mkDeployment "checkout" "3"
           (Some (mkLabelSelector (Some {[ "app" := "checkout" ]}))) None]
    ∧ dep_selector d = Some ls ∧ matchLabels ls = Some ml
    ∧ ml !! "app" = Some "checkout".
Proof.
  destruct (createDeploy_appends_clone quietEnv (mkDeploySelector "app" "checkout") "42"
              (mkCluster []
                 [mkDeployment "checkout" "3"
                    (Some (mkLabelSelector (Some {[ "app" := "checkout" ]}))) None] [])
              (mkCluster []
                 [mkDeployment "checkout" "3"
                    (Some (mkLabelSelector (Some {[ "app" := "checkout" ]}))) None;
                  mkDeployment "pr42-checkout" EmptyString
                    (Some (mkLabelSelector (Some {[ "app" := "pr42-checkout" ]}))) None]
                 []))
    as (d & ls & ml & H1 & H2 & H3 & H4 & _).
  - vm_compute. reflexivity.
  - exists d, ls, ml. repeat split; assumption.
Defined.

(** ** What a stage that does not succeed has written *)

Lemma createService_failure_writes_nothing (env : Env) (name version : string)
    (c c' : Cluster) (r : Result deploySelector) :
  createService env name version c = (r, c') →
  (∀ selector, r ≠ Ok selector) → c' = c.
Proof.
  unfold createService, newK8sClient.
  destruct (env_k8sConfig env); [by intros [= <- <-]|].
  unfold bind, lift, deref, listServices.
  destruct (env_listServices env); [by intros [= <- <-]|].
  destruct (rangeSelector _); [|by intros [= <- <-]].
  destruct (mapAssign (svc_labels _) _ _); [|by intros [= <- <-]..].
  destruct (mapAssign (svc_selector _) _ _); [|by intros [= <- <-]..].
  unfold serviceCreate. destruct (env_createService env _); [by intros [= <- <-]|].
  destruct (bool_decide _); [by intros [= <- <-]|].
  unfold ret. intros [= <- <-] Hfail. by destruct (Hfail d).
Qed.

Lemma createDeploy_failure_writes_nothing (env : Env) (selector : deploySelector)
    (version : string) (c c' : Cluster) (r : Result unit) :
  createDeploy env selector version c = (r, c') → r ≠ Ok tt → c' = c.
Proof.
  unfold createDeploy, newK8sClient.
  destruct (env_k8sConfig env); [by intros [= <- <-]|].
  unfold bind, lift, deref, listDeployments.
  destruct (env_listDeployments env); [by intros [= <- <-]|].
  destruct (findDeploy _ _) as [d| | |]; [|by intros [= <- <-]..].
  destruct (dep_selector d) as [ls|]; [|by intros [= <- <-]].
  destruct (mapAssign (matchLabels ls) _ _); [|by intros [= <- <-]..].
  destruct (match mapLookup _ _ with Some _ => _ | None => _ end);
    [|by intros [= <- <-]..].
  unfold deploymentCreate. destruct (env_createDeployment env _); [by intros [= <- <-]|].
  destruct (bool_decide _); [by intros [= <- <-]|].
  unfold ret. by intros [= <- <-].
Qed.

Lemma createGateway_failure_writes_nothing (env : Env) (url gateway o v : string)
    (c c' : Cluster) (r : Result unit) :
  createGatewayVirtualService env url gateway o v c = (r, c') → r ≠ Ok tt → c' = c.
Proof.
  unfold createGatewayVirtualService.
  destruct (newIstioClient env) as [ics err].
  rewrite bool_decide_eq_false_2 by (intros H; by apply H).
  unfold bind, lift, deref. destruct ics; [|by intros [= <- <-]].
  unfold virtualServiceCreate.
  destruct (env_createVirtualService env _); [by intros [= <- <-]|].
  destruct (existsb _ _); [by intros [= <- <-]|]. by intros [= <- <-].
Qed.

(** X6. A workload or gateway stage that does not succeed has written
    nothing: whenever [createService], [createDeploy] or
    [createGatewayVirtualService] ends in an error or a panic, the cluster is
    exactly as the stage found it. *)
Theorem failed_stage_writes_nothing (env : Env) (c c' : Cluster) :
  (∀ name version r,
      createService env name version c = (r, c') →
      (∀ selector, r ≠ Ok selector) → c' = c)
  ∧ (∀ selector version r,
        createDeploy env selector version c = (r, c') → r ≠ Ok tt → c' = c)
  ∧ (∀ url gateway o v r,
        createGatewayVirtualService env url gateway o v c = (r, c') →
        r ≠ Ok tt → c' = c).
Proof.
  split; [|split].
  - intros name version r. apply createService_failure_writes_nothing.
  - intros selector version r. apply createDeploy_failure_writes_nothing.
  - intros url gateway o v r. apply createGateway_failure_writes_nothing.
Qed.

Lemma failed_stage_writes_nothing_witness :
  createService quietEnv "checkout" "42"
    (mkCluster [mkService "checkout" "7" None (Some {[ "app" := "checkout" ]})] [] [])
  = (Panic NilMapAssignment,
     mkCluster [mkService "checkout" "7" None (Some {[ "app" := "checkout" ]})] [] [])
  ∧ mkCluster [mkService "checkout" "7" None (Some {[ "app" := "checkout" ]})] [] []
    = mkCluster [mkService "checkout" "7" None (Some {[ "app" := "checkout" ]})] [] [].
Proof.
  split; [reflexivity|].
  destruct (failed_stage_writes_nothing quietEnv
              (mkCluster [mkService "checkout" "7" None
                            (Some {[ "app" := "checkout" ]})] [] [])
              (mkCluster [mkService "checkout" "7" None
                            (Some {[ "app" := "checkout" ]})] [] []))
    as (Hsvc & _ & _).
  apply (Hsvc "checkout" "42" (Panic NilMapAssignment)); [reflexivity | done].
Defined.

(** ** The whole operation: what it keeps and what it leaves behind *)

Lemma workloadsKept_refl (c : Cluster) : workloadsKept c c.
Proof. by split. Qed.

Lemma workloadsKept_trans (c1 c2 c3 : Cluster) :
  workloadsKept c1 c2 → workloadsKept c2 c3 → workloadsKept c1 c3.
Proof. intros [H1 H2] [H3 H4]. split; by etrans. Qed.

Lemma bind_workloadsKept {A B} (m : M A) (k : A → M B) :
  (∀ c r c', m c = (r, c') → workloadsKept c c') →
  (∀ a c r c', k a c = (r, c') → workloadsKept c c') →
  ∀ c r c', bind m k c = (r, c') → workloadsKept c c'.
Proof.
  intros Hm Hk c r c'. unfold bind.
  destruct (m c) as [[a|e|p|] c1] eqn:Hmc.
  - intros Hkc. eapply workloadsKept_trans; [by eapply Hm | by eapply Hk].
  - intros [= <- <-]. by eapply Hm.
  - intros [= <- <-]. by eapply Hm.
  - intros [= <- <-]. by eapply Hm.
Qed.

Lemma createService_workloadsKept (env : Env) (name version : string)
    (c c' : Cluster) (r : Result deploySelector) :
  createService env name version c = (r, c') → workloadsKept c c'.
Proof.
  intros Hrun. destruct r as [selector| | |].
  - destruct (createService_Ok_inv _ _ _ _ _ _ Hrun)
      as (o & l & s & _ & _ & _ & _ & _ & _ & _ & _ & _ & _ & ->).
    split; [by apply prefix_app_r | done].
  - rewrite (createService_failure_writes_nothing _ _ _ _ _ _ Hrun); [|done].
    apply workloadsKept_refl.
  - rewrite (createService_failure_writes_nothing _ _ _ _ _ _ Hrun); [|done].
    apply workloadsKept_refl.
  - rewrite (createService_failure_writes_nothing _ _ _ _ _ _ Hrun); [|done].
    apply workloadsKept_refl.
Qed.

Lemma createDeploy_workloadsKept (env : Env) (selector : deploySelector)
    (version : string) (c c' : Cluster) (r : Result unit) :
  createDeploy env selector version c = (r, c') → workloadsKept c c'.
Proof.
  intros Hrun.
  assert (r ≠ Ok tt → workloadsKept c c') as Hfailed.
  { intros Hfail.
    rewrite (createDeploy_failure_writes_nothing _ _ _ _ _ _ Hrun Hfail).
    apply workloadsKept_refl. }
  destruct r as [[]| | |]; [|by apply Hfailed..].
  revert Hrun. unfold createDeploy, newK8sClient.
  destruct (env_k8sConfig env); [done|].
  unfold bind, lift, deref, listDeployments.
  destruct (env_listDeployments env); [done|].
  destruct (findDeploy _ _) as [d| | |]; [|done..].
  destruct (dep_selector d) as [ls|]; [|done].
  destruct (mapAssign (matchLabels ls) _ _); [|done..].
  destruct (match mapLookup _ _ with Some _ => _ | None => _ end); [|done..].
  unfold deploymentCreate. destruct (env_createDeployment env _); [done|].
  destruct (bool_decide _); [done|]. unfold ret. intros [= <-].
  split; [done | by apply prefix_app_r].
Qed.

Lemma virtualServicePatch_workloads (env : Env) (ns name : string)
    (vs : VirtualService) (c c' : Cluster) (r : Result VirtualService) :
  virtualServicePatch env ns name vs c = (r, c') →
  services c' = services c ∧ deployments c' = deployments c.
Proof.
  unfold virtualServicePatch. destruct (env_patchVirtualService env name).
  - by intros [= <- <-].
  - destruct (bool_decide _); by intros [= <- <-].
Qed.

Lemma virtualServiceCreate_workloads (env : Env) (ns : string)
    (vs : VirtualService) (c c' : Cluster) (r : Result VirtualService) :
  virtualServiceCreate env ns vs c = (r, c') →
  services c' = services c ∧ deployments c' = deployments c.
Proof.
  unfold virtualServiceCreate. destruct (env_createVirtualService env _).
  - by intros [= <- <-].
  - destruct (existsb _ _); by intros [= <- <-].
Qed.

Lemma sidecarLocateOrCreate_workloads (env : Env) (ics : option Clientset)
    (o : string) (c c' : Cluster) (r : Result VirtualService) :
  sidecarLocateOrCreate env ics o c = (r, c') →
  services c' = services c ∧ deployments c' = deployments c.
Proof.
  unfold sidecarLocateOrCreate, bind, lift, deref, listVirtualServices.
  destruct ics; [|by intros [= <- <-]].
  destruct (env_listVirtualServices env); [by intros [= <- <-]|].
  destruct (locateBase _ _); [by intros [= <- <-]|].
  apply virtualServiceCreate_workloads.
Qed.

Lemma sidecar_workloads (env : Env) (o v : string) (c c' : Cluster) (r : Result unit) :
  createSidecarVirtualService env o v c = (r, c') →
  services c' = services c ∧ deployments c' = deployments c.
Proof.
  unfold createSidecarVirtualService. destruct (newIstioClient env) as [ics err].
  rewrite bool_decide_eq_false_2 by (intros H; by apply H).
  unfold bind at 1.
  destruct (sidecarLocateOrCreate env ics o c) as [[b|e|k|] c1] eqn:Hbase;
    apply sidecarLocateOrCreate_workloads in Hbase as [Hs Hd];
    [|by intros [= <- <-]..].
  unfold bind at 1, lift.
  destruct (sidecarCompose env b o v) as [p| | |]; [|by intros [= <- <-]..].
  unfold bind.
  destruct (virtualServicePatch env istioNamespace (vs_name p) p c1)
    as [[x|e|k|] c3] eqn:Hp;
    apply virtualServicePatch_workloads in Hp as [Hs' Hd'];
    intros [= <- <-]; by rewrite Hs', Hd'.
Qed.

Lemma gateway_workloads (env : Env) (url gateway o v : string) (c c' : Cluster)
    (r : Result unit) :
  createGatewayVirtualService env url gateway o v c = (r, c') →
  services c' = services c ∧ deployments c' = deployments c.
Proof.
  unfold createGatewayVirtualService. destruct (newIstioClient env) as [ics err].
  rewrite bool_decide_eq_false_2 by (intros H; by apply H).
  unfold bind, lift, deref. destruct ics; [|by intros [= <- <-]].
  destruct (virtualServiceCreate env istioNamespace _ c) as [[b|e|k|] c1] eqn:Hc;
    apply virtualServiceCreate_workloads in Hc; by intros [= <- <-].
Qed.

Lemma workloads_eq_kept (c c' : Cluster) :
  services c' = services c ∧ deployments c' = deployments c → workloadsKept c c'.
Proof. intros [Hs Hd]. unfold workloadsKept. by rewrite Hs, Hd. Qed.

(** X7. Whatever its outcome, the create operation never modifies or removes
    a Service or a Deployment that existed before it ran: the Services and
    the Deployments it found are a prefix of the ones it leaves. *)
Theorem create_keeps_existing_workloads (env : Env) (cmd : cmdCreate)
    (c c' : Cluster) (r : Result unit) :
  cmdCreate_RunE env cmd c = (r, c') → workloadsKept c c'.
Proof.
  unfold cmdCreate_RunE. apply bind_workloadsKept.
  { intros ? ? ?. apply createService_workloadsKept. }
  intros selector. apply bind_workloadsKept.
  { intros ? ? ?. apply createDeploy_workloadsKept. }
  intros _. apply bind_workloadsKept.
  { intros c1 r1 c2 H. by apply workloads_eq_kept, (sidecar_workloads _ _ _ _ _ _ H). }
  intros _. apply bind_workloadsKept.
  { intros c1 r1 c2 H. by apply workloads_eq_kept, (gateway_workloads _ _ _ _ _ _ _ _ H). }
  intros _ c1 r1 c2 [= <- <-]. apply workloadsKept_refl.
Qed.

Lemma create_keeps_existing_workloads_witness :
  workloadsKept
    (mkCluster [mkService "checkout" "7" (Some {[ "app" := "checkout" ]})
                  (Some {[ "app" := "checkout" ]})] [] [])
    (mkCluster [mkService "checkout" "7" (Some {[ "app" := "checkout" ]})
                  (Some {[ "app" := "checkout" ]});
                mkService "pr42-checkout" EmptyString
                  (Some {[ "app" := "pr42-checkout" ]})
                  (Some {[ "app" := "pr42-checkout" ]})] [] []).
Proof.
  apply (create_keeps_existing_workloads quietEnv
           (mkCmdCreate "checkout" "42" "my-gateway" "pr42.example.com") _ _
           (Panic NilPointerDereference)).
  vm_compute. reflexivity.
Defined.

(** X8. Nothing is rolled back: when the Service clone has been created and
    [createDeploy] then ends in an error, the operation returns that error
    and leaves the cluster as [createService] left it, with the preview
    Service appended and nothing else changed. *)
Theorem no_rollback_after_service_clone (env : Env) (cmd : cmdCreate)
    (c c1 c2 : Cluster) (selector : deploySelector) (e : Error) :
  createService env (originService cmd) (previewVersion cmd) c = (Ok selector, c1) →
  createDeploy env selector (previewVersion cmd) c1 = (Err e, c2) →
  cmdCreate_RunE env cmd c = (Err e, c1)
  ∧ ∃ svc,
      svc_name svc = previewName (originService cmd) (previewVersion cmd)
      ∧ c1 = mkCluster (services c ++ [svc]) (deployments c) (virtualServices c).
Proof.
  intros Hsvc Hdep.
  assert (c2 = c1) as -> by (by eapply createDeploy_failure_writes_nothing).
  split.
  - unfold cmdCreate_RunE, bind at 1. rewrite Hsvc. unfold bind at 1. by rewrite Hdep.
  - destruct (createService_Ok_inv _ _ _ _ _ _ Hsvc)
      as (o & l & s & _ & _ & Hname & _ & _ & _ & _ & _ & _ & _ & ->).
    eexists. split; [|done]. unfold previewService. cbn [svc_name]. by rewrite Hname.
Qed.

Lemma no_rollback_after_service_clone_witness :
  cmdCreate_RunE
    (mkEnv None None None (λ _, None) (Some (Remote "timeout")) (λ _, None) None
       (λ _, None) (λ _, None) EmptyString EmptyString [])
    (mkCmdCreate "checkout" "42" "my-gateway" "pr42.example.com")
    (mkCluster [mkService "checkout" "7" (Some {[ "app" := "checkout" ]})
                  (Some {[ "app" := "checkout" ]})] [] [])
  = (Err (Remote "timeout"),
     mkCluster [mkService "checkout" "7" (Some {[ "app" := "checkout" ]})
                  (Some {[ "app" := "checkout" ]});
                mkService "pr42-checkout" EmptyString
                  (Some {[ "app" := "pr42-checkout" ]})
                  (Some {[ "app" := "pr42-checkout" ]})] [] []).
Proof.
  eapply (no_rollback_after_service_clone _
            (mkCmdCreate "checkout" "42" "my-gateway" "pr42.example.com")).
  - vm_compute. reflexivity.
  - vm_compute. reflexivity.
Defined.

(** X9. A preview is created once per origin and version: after a successful
    [createService], a second call for the same name and version finds the
    clone's name taken, returns the already-exists error and writes nothing. *)
Theorem createService_twice_is_rejected (env : Env) (name version : string)
    (c c1 : Cluster) (selector : deploySelector) :
  createService env name version c = (Ok selector, c1) →
  createService env name version c1
  = (Err (AlreadyExists (previewName name version)), c1).
Proof.
  intros Hrun.
  destruct (createService_Ok_inv _ _ _ _ _ _ Hrun)
    as (o & l & s & Ho & Hin & Hname & Hl & Hs & He & Hcfg & Hlist & Hcreate & _ & ->).
  unfold createService. rewrite (newK8sClient_ok env Hcfg).
  unfold bind, lift, deref, listServices. rewrite Hlist. cbn [services].
  assert (findService name (services c) ≠ zeroService) as Hfound.
  { rewrite <- Ho. intros Hz. rewrite Hz in Hs. done. }
  rewrite (findService_app _ _ _ Hfound), <- Ho.
  assert (rangeSelector (svc_selector o) = Some selector) as ->.
  { revert Hrun. unfold createService. rewrite (newK8sClient_ok env Hcfg).
    unfold bind, lift, deref, listServices. rewrite Hlist, <- Ho.
    destruct (rangeSelector (svc_selector o)) as [s'|]; [|done].
    rewrite Hl, Hs. cbn [mapAssign]. unfold serviceCreate. cbn [svc_name].
    rewrite Hname, Hcreate.
    destruct (bool_decide _); [done|]. unfold ret. by intros [= ->]. }
  rewrite Hl, Hs. cbn [mapAssign]. unfold serviceCreate.
  cbn [svc_name services]. rewrite Hname, Hcreate.
  rewrite bool_decide_eq_true_2; [done|].
  rewrite fmap_app. apply elem_of_app. right. unfold previewService.
  cbn [fmap list_fmap svc_name]. rewrite Hname. left.
Qed.

Lemma createService_twice_is_rejected_witness :
  createService quietEnv "checkout" "42"
    (mkCluster [mkService "checkout" "7" (Some {[ "app" := "checkout" ]})
                  (Some {[ "app" := "checkout" ]});
                mkService "pr42-checkout" EmptyString
                  (Some {[ "app" := "pr42-checkout" ]})
                  (Some {[ "app" := "pr42-checkout" ]})] [] [])
  = (Err (AlreadyExists (previewName "checkout" "42")),
     mkCluster [mkService "checkout" "7" (Some {[ "app" := "checkout" ]})
                  (Some {[ "app" := "checkout" ]});
                mkService "pr42-checkout" EmptyString
                  (Some {[ "app" := "pr42-checkout" ]})
                  (Some {[ "app" := "pr42-checkout" ]})] [] []).
Proof.
  apply (createService_twice_is_rejected quietEnv "checkout" "42"
           (mkCluster [mkService "checkout" "7" (Some {[ "app" := "checkout" ]})
                         (Some {[ "app" := "checkout" ]})] [] [])
           _ (mkDeploySelector "app" "checkout")).
  vm_compute. reflexivity.
Defined.

(** ** The gateway stage *)

(** X10. The gateway routing object is named from the origin and the version
    alone, and its creation error comes back wrapped: after a successful
    [createGatewayVirtualService], a second call for the same origin and
    version, whatever URL and gateway it is given, returns the
    already-exists error inside the stage's context and writes nothing. *)
Theorem gateway_twice_is_rejected (env : Env) (url gateway url' gateway' o v : string)
    (c c1 : Cluster) :
  createGatewayVirtualService env url gateway o v c = (Ok tt, c1) →
  createGatewayVirtualService env url' gateway' o v c1
  = (Err (Wrapped "failed to create new virtual-service"
            (AlreadyExists (previewGatewayVirtualServiceName o v))), c1).
Proof.
  unfold createGatewayVirtualService. destruct (newIstioClient env) as [ics err].
  rewrite bool_decide_eq_false_2 by (intros H; by apply H).
  unfold bind, lift, deref. destruct ics; [|done].
  unfold virtualServiceCreate. cbn [vs_name gatewayVirtualService].
  destruct (env_createVirtualService env _); [done|].
  destruct (existsb _ (virtualServices c)); [done|]. intros [= <-].
  cbn [virtualServices]. rewrite existsb_app. cbn [existsb].
  rewrite (sameObject_refl istioNamespace (previewGatewayVirtualServiceName o v))
    by done.
  by rewrite orb_true_r.
Qed.

Lemma gateway_twice_is_rejected_witness :
  ∃ c1,
    createGatewayVirtualService quietEnv "pr42.example.com" "my-gateway"
      "checkout" "42" emptyCluster = (Ok tt, c1)
    ∧ createGatewayVirtualService quietEnv "other.example.com" "edge"
        "checkout" "42" c1
      = (Err (Wrapped "failed to create new virtual-service"
                (AlreadyExists (previewGatewayVirtualServiceName "checkout" "42"))),
         c1).
Proof.
  exists (mkCluster [] []
            [serverView quietEnv
               (gatewayVirtualService "pr42.example.com" "my-gateway" "checkout" "42")]).
  split; [reflexivity|].
  apply (gateway_twice_is_rejected quietEnv "pr42.example.com" "my-gateway"
           "other.example.com" "edge" "checkout" "42" emptyCluster).
  reflexivity.
Defined.

(** X11. The gateway routing object never serves as the shared
    mesh-internal table: it declares a gateway, so the search of
    [createSidecarVirtualService] passes over it, for every host, even when
    the preview URL equals the origin host. *)
Theorem gateway_object_is_never_the_table (env : Env) (h url gateway o v : string)
    (vss : list VirtualService) :
  locateBase h (vss ++ [serverView env (gatewayVirtualService url gateway o v)])
  = locateBase h vss.
Proof. by rewrite locateBase_snoc. Qed.

(** ** The search for the shared table *)

(** X12. The search does not stop at its first hit: the object it returns is
    the last one in list order that declares no gateway and lists the host,
    so every object after it is either bound to a gateway or lacks the
    host. *)
Theorem locateBase_returns_last_candidate (h : string) (items : list VirtualService)
    (b : VirtualService) :
  locateBase h items = Some b →
  ∃ before after,
    items = before ++ b :: after
    ∧ vs_gateways b = [] ∧ h ∈ vs_hosts b
    ∧ Forall (λ i, vs_gateways i ≠ [] ∨ h ∉ vs_hosts i) after.
Proof.
  induction items as [|x items IH] using rev_ind; [done|].
  rewrite locateBase_snoc. destruct (candidate h x) eqn:Hx.
  - intros [= <-]. exists items, []. split; [done|].
    apply candidate_true in Hx as [Hg Hh]. by repeat split.
  - intros Hloc. destruct (IH Hloc) as (before & after & -> & Hg & Hh & Hafter).
    exists before, (after ++ [x]). split; [by rewrite <- app_assoc|].
    repeat split; [done..|]. apply Forall_app. split; [done|].
    apply Forall_singleton.
    destruct (decide (vs_gateways x = [])) as [Hxg|]; [|by left]. right.
    intros Hxh. assert (candidate h x = true) by (by apply candidate_true).
    congruence.
Qed.

Lemma locateBase_returns_last_candidate_witness :
  ∃ before after,
    [sidecarBase "checkout"; restamped (sidecarBase "checkout") []]
    = before ++ restamped (sidecarBase "checkout") [] :: after
    ∧ Forall (λ i, vs_gateways i ≠ [] ∨ serviceHost "checkout" ∉ vs_hosts i) after.
Proof.
  destruct (locateBase_returns_last_candidate (serviceHost "checkout")
              [sidecarBase "checkout"; restamped (sidecarBase "checkout") []]
              (restamped (sidecarBase "checkout") []))
    as (before & after & Heq & _ & _ & Hafter).
  - vm_compute. reflexivity.
  - by exists before, after.
Defined.

(** ** Route composition over time *)

(** X13. The sidecar stage is not atomic: when no table exists yet and the
    registry accepts the creation of the base object but rejects the patch,
    the stage returns the patch error and leaves behind the freshly created
    table holding only the default route. *)
Theorem patch_failure_leaves_bare_table (env : Env) (o v : string) (c : Cluster)
    (e : Error) :
  env_istioConfig env = None →
  env_listVirtualServices env = None →
  env_createVirtualService env (previewVirtualServiceName o) = None →
  env_patchVirtualService env (previewVirtualServiceName o) = Some e →
  locateBase (serviceHost o) (virtualServices c) = None →
  existsb (sameObject istioNamespace (previewVirtualServiceName o))
    (virtualServices c) = false →
  createSidecarVirtualService env o v c
  = (Err e,
     mkCluster (services c) (deployments c)
       (virtualServices c ++ [serverView env (sidecarBase o)]))
  ∧ storedRoutes o
      (mkCluster (services c) (deployments c)
         (virtualServices c ++ [serverView env (sidecarBase o)]))
    = Some [defaultRoute o].
Proof.
  intros Hcfg Hlist Hcreate Hpatch Hloc Hfresh. split.
  - unfold createSidecarVirtualService. rewrite (newIstioClient_ok env Hcfg).
    rewrite bool_decide_eq_false_2 by (intros H; by apply H).
    unfold bind at 1.
    rewrite (sidecarLocateOrCreate_created env o c Hlist Hcreate Hloc Hfresh).
    unfold bind at 1, lift. rewrite sidecarCompose_routes
      by (cbn; unfold GoSort.maxInsertion; lia).
    unfold bind, virtualServicePatch. cbn [vs_name restamped serverView sidecarBase].
    by rewrite Hpatch.
  - unfold storedRoutes. cbn [virtualServices].
    rewrite find_last; [done | done | by apply sameObject_refl].
Qed.

Lemma patch_failure_leaves_bare_table_witness :
  createSidecarVirtualService
    (mkEnv None None None (λ _, None) None (λ _, None) None (λ _, None)
       (λ _, Some (Remote "conflict")) "VirtualService"
       "networking.istio.io/v1beta1" [])
    "checkout" "42" emptyCluster
  = (Err (Remote "conflict"),
     mkCluster [] []
       [restamped (sidecarBase "checkout") [defaultRoute "checkout"]]).
Proof.
  destruct (patch_failure_leaves_bare_table
              (mkEnv None None None (λ _, None) None (λ _, None) None (λ _, None)
                 (λ _, Some (Remote "conflict")) "VirtualService"
       "networking.istio.io/v1beta1" [])
              "checkout" "42" emptyCluster (Remote "conflict")) as [Hrun _];
    [reflexivity..|].
  rewrite Hrun. reflexivity.
Defined.

Lemma filter_preview_all (ps : list HTTPRoute) :
  Forall (λ r, isPreviewRoute r = true) ps →
  filter (λ r, isPreviewRoute r = true) ps = ps
  ∧ filter (λ r, isPreviewRoute r = false) ps = [].
Proof.
  induction 1 as [|r ps Hr Hps [IH1 IH2]]; [done|].
  rewrite !filter_cons, decide_True, decide_False by (rewrite ?Hr; done).
  by rewrite IH1, IH2.
Qed.

(** One more composition on a table the tool built: the new route goes first,
    the older preview routes follow in reverse, the default route stays last. *)
Lemma table_step (o v : string) (ps : list HTTPRoute) :
  GoStrings.HasPrefix o previewPrefixName = false →
  Forall (λ r, isPreviewRoute r = true) ps →
  reverse (filter (λ r, isPreviewRoute r = true)
             ((ps ++ [defaultRoute o]) ++ [previewRoute o v]))
    ++ filter (λ r, isPreviewRoute r = false)
         ((ps ++ [defaultRoute o]) ++ [previewRoute o v])
  = (previewRoute o v :: reverse ps) ++ [defaultRoute o].
Proof.
  intros Ho Hps. destruct (filter_preview_all ps Hps) as [Hall Hnone].
  rewrite !filter_app, Hall, Hnone, !filter_cons, !filter_nil.
  rewrite isPreviewRoute_previewRoute, isPreviewRoute_defaultRoute, Ho.
  decide_bools. cbn [app]. rewrite app_nil_r, reverse_app. done.
Qed.

Lemma composeAll_from_table (env : Env) (o : string) (vs : list string) :
  routingRegistryAnswers env →
  GoStrings.HasPrefix o previewPrefixName = false →
  ∀ (ps : list HTTPRoute) (c : Cluster) (vss : list VirtualService),
    virtualServices c
    = vss ++ [serverView env (restamped (sidecarBase o) (ps ++ [defaultRoute o]))] →
    existsb (sameObject istioNamespace (previewVirtualServiceName o)) vss = false →
    Forall (λ r, isPreviewRoute r = true) ps →
    (length ps + length vs < GoSort.maxInsertion)%nat →
    composeAll env o vs c
    = (Ok tt,
       mkCluster (services c) (deployments c)
         (vss ++ [serverView env
                    (restamped (sidecarBase o)
                       (foldl (λ qs v, previewRoute o v :: reverse qs) ps vs
                          ++ [defaultRoute o]))])).
Proof.
  intros Henv Ho. induction vs as [|v vs IH]; intros ps c vss Hc Hfresh Hps Hlen.
  - cbn [composeAll foldl]. unfold ret. destruct c as [s d w]. cbn in Hc.
    by subst w.
  - cbn [composeAll foldl]. unfold bind at 1.
    rewrite (later_composition env o v c vss (ps ++ [defaultRoute o]) Henv Hc Hfresh)
      by (rewrite length_app; cbn [length] in *; lia).
    rewrite (table_step o v ps Ho Hps).
    rewrite (IH (previewRoute o v :: reverse ps) _ vss); [done|done|done| |].
    + apply Forall_cons. split; [apply isPreviewRoute_previewRoute|].
      by apply Forall_reverse.
    + cbn [length] in *. rewrite length_reverse. lia.
Qed.

Lemma tableOrder_Permutation (o : string) (vs : list string) (ps : list HTTPRoute) :
  foldl (λ qs v, previewRoute o v :: reverse qs) ps vs
  ≡ₚ ps ++ (previewRoute o <$> vs).
Proof.
  revert ps. induction vs as [|v vs IH]; intros ps; cbn [foldl fmap list_fmap].
  - by rewrite app_nil_r.
  - rewrite IH. cbn [app]. rewrite reverse_Permutation.
    by rewrite Permutation_middle.
Qed.

(** X14. For an origin whose name does not start with the reserved prefix and
    that has no table yet, composing any non-empty list of fewer than twelve
    versions, one run after the other, succeeds and leaves a table that holds
    one route per composed version, in the order [tableOrder] gives, followed
    by the default route in last place. *)
Theorem default_route_stays_last (env : Env) (o v : string) (vs : list string)
    (c : Cluster) :
  routingRegistryAnswers env →
  GoStrings.HasPrefix o previewPrefixName = false →
  locateBase (serviceHost o) (virtualServices c) = None →
  existsb (sameObject istioNamespace (previewVirtualServiceName o))
    (virtualServices c) = false →
  (length (v :: vs) < GoSort.maxInsertion)%nat →
  ∃ c',
    composeAll env o (v :: vs) c = (Ok tt, c')
    ∧ storedRoutes o c' = Some (tableOrder o (v :: vs) ++ [defaultRoute o])
    ∧ tableOrder o (v :: vs) ≡ₚ previewRoute o <$> v :: vs.
Proof.
  intros Henv Ho Hloc Hfresh Hlen. eexists. split; [|split].
  - cbn [composeAll]. unfold bind at 1.
    rewrite (first_composition env o v c Henv Ho Hloc Hfresh).
    apply (composeAll_from_table env o vs Henv Ho [previewRoute o v] _
             (virtualServices c)); [done | done | |].
    + apply Forall_singleton, isPreviewRoute_previewRoute.
    + cbn [length] in *. lia.
  - unfold storedRoutes. cbn [virtualServices].
    rewrite find_last; [done | done | by apply sameObject_refl].
  - unfold tableOrder. by rewrite tableOrder_Permutation.
Qed.

Lemma default_route_stays_last_witness :
  ∃ c',
    composeAll quietEnv "checkout" ["1"; "2"; "3"] emptyCluster = (Ok tt, c')
    ∧ storedRoutes "checkout" c'
      = Some ([previewRoute "checkout" "3"; previewRoute "checkout" "1";
               previewRoute "checkout" "2"] ++ [defaultRoute "checkout"]).
Proof.
  destruct (default_route_stays_last quietEnv "checkout" "1" ["2"; "3"] emptyCluster)
    as (c' & Hrun & Hstored & _).
  - repeat split; reflexivity.
  - reflexivity.
  - reflexivity.
  - reflexivity.
  - cbn. unfold GoSort.maxInsertion. lia.
  - exists c'. split; [exact Hrun|]. rewrite Hstored. reflexivity.
Defined.

(** ** The command line *)

Lemma cmdCreate_New_zero :
  cmdCreate_New zeroCmdCreate
  = (Cobra.mkCommand "create" "create preview resources"
       [ Cobra.mkFlag "version" "v" EmptyString
           "preview version (e.g. pull-request ID)" Cobra.FVersion true;
         Cobra.mkFlag "service" "s" EmptyString
           "preview original service name" Cobra.FService true;
         Cobra.mkFlag "gateway" "g" "my-gateway" "ingressgateway name"
           Cobra.FGateway false;
         Cobra.mkFlag "url" "u" EmptyString "preview endpoint url" Cobra.FURL false ],
     mkCmdCreate EmptyString EmptyString "my-gateway" EmptyString).
Proof. reflexivity. Qed.

Lemma parseFlags_outcome (flags : list Cobra.Flag) (args : Cobra.Args) (c : cmdCreate) :
  "help" ∉ args.*1 →
  (∃ c', Cobra.parseFlags flags args c = Ok c')
  ∨ (∃ n, Cobra.parseFlags flags args c = Err (UnknownFlag n)).
Proof.
  revert c. induction args as [|[n v] args IH]; intros c Hhelp;
    cbn [Cobra.parseFlags].
  - left. by eexists.
  - cbn [fmap list_fmap fst] in Hhelp. apply not_elem_of_cons in Hhelp as [Hn Hrest].
    destruct (find _ flags); [by apply IH|]. right.
    rewrite bool_decide_eq_false_2 by done. by eexists.
Qed.

Lemma VisitAll_create_flags :
  Cobra.VisitAll (Cobra.cmd_flags (cmdCreate_New zeroCmdCreate).1)
  = [ Cobra.mkFlag "gateway" "g" "my-gateway" "ingressgateway name"
        Cobra.FGateway false;
      Cobra.mkFlag "service" "s" EmptyString
        "preview original service name" Cobra.FService true;
      Cobra.mkFlag "url" "u" EmptyString "preview endpoint url" Cobra.FURL false;
      Cobra.mkFlag "version" "v" EmptyString
        "preview version (e.g. pull-request ID)" Cobra.FVersion true ].
Proof. vm_compute. reflexivity. Qed.

(** X15. Each flag is bound to its own field of the command: a command line
    that gives --version, --service, --gateway and --url runs the stages on
    exactly those four values, and one that leaves --gateway out runs them
    with the gateway my-gateway. *)
Theorem flags_reach_the_stages (env : Env) (v s g u : string) (c : Cluster) :
  execute env [("version", v); ("service", s); ("gateway", g); ("url", u)] c
  = cmdCreate_RunE env (mkCmdCreate s v g u) c
  ∧ execute env [("url", u); ("service", s); ("version", v)] c
    = cmdCreate_RunE env (mkCmdCreate s v "my-gateway" u) c.
Proof. split; reflexivity. Qed.

(** X16. A command line that leaves out --version or --service, and does
    not ask for help, never reaches the stages: it ends in an unknown-flag
    error or in the missing-flags error that names, in lexicographical
    order, the required flags it left out, and the cluster is untouched. *)
Theorem missing_required_flag_stops_before_stages (env : Env) (args : Cobra.Args)
    (c : Cluster) :
  "help" ∉ args.*1 →
  "version" ∉ args.*1 ∨ "service" ∉ args.*1 →
  ∃ e,
    execute env args c = (Err e, c)
    ∧ ((∃ n, e = UnknownFlag n)
       ∨ e = MissingFlags (filter (λ n, n ∉ args.*1) ["service"; "version"])).
Proof.
  intros Hhelp Hmissing. unfold execute.
  pose proof VisitAll_create_flags as Hvisit. revert Hvisit.
  destruct (cmdCreate_New zeroCmdCreate) as [cmd c0]. cbn [fst]. intros Hvisit.
  unfold bind at 1, lift at 1.
  destruct (parseFlags_outcome (Cobra.cmd_flags cmd) args c0 Hhelp)
    as [[c' ->]|[n ->]].
  - unfold bind at 1, lift at 1, Cobra.validateRequiredFlags. rewrite Hvisit.
    rewrite !filter_cons, !filter_nil. cbn [Cobra.flag_required Cobra.flag_name].
    repeat case_decide; cbn [fmap list_fmap];
      try (eexists; split; [reflexivity|]; by right).
    all: exfalso; destruct Hmissing; intuition congruence.
  - eexists. split; [reflexivity|]. left. by eexists.
Qed.

Lemma missing_required_flag_stops_before_stages_witness :
  ∃ e, execute quietEnv [("service", "checkout"); ("url", "pr42.example.com")]
         emptyCluster = (Err e, emptyCluster)
       ∧ ((∃ n, e = UnknownFlag n) ∨ e = MissingFlags ["version"]).
Proof.
  destruct (missing_required_flag_stops_before_stages quietEnv
              [("service", "checkout"); ("url", "pr42.example.com")] emptyCluster)
    as (e & Hrun & He).
  - vm_compute. intros H.
    repeat (apply elem_of_cons in H as [H|H]; [discriminate H|]).
    by apply elem_of_nil in H.
  - left. vm_compute. intros H.
    repeat (apply elem_of_cons in H as [H|H]; [discriminate H|]).
    by apply elem_of_nil in H.
  - exists e. split; [exact Hrun|]. destruct He as [He|He]; [by left|right].
    rewrite He. vm_compute. reflexivity.
Defined.

(** ** The first preview of an origin, end to end *)

Lemma table_name_is_not_gateway_name (o v : string) :
  previewGatewayVirtualServiceName o v ≠ previewVirtualServiceName o.
Proof.
  intros H. apply (f_equal String.length) in H. revert H.
  unfold previewGatewayVirtualServiceName, previewVirtualServiceName, previewName.
  rewrite !string_length_app. cbn [String.length]. lia.
Qed.

Lemma createService_single_selector (env : Env) (name version : string) (c : Cluster)
    (origin : Service) (labels : gmap string string) (k val : string) :
  workloadRegistryAnswers env →
  findService name (services c) = origin →
  svc_name origin = name →
  svc_labels origin = Some labels →
  svc_selector origin = Some {[ k := val ]} →
  previewName name version ∉ svc_name <$> services c →
  createService env name version c
  = (Ok (mkDeploySelector k val),
     mkCluster
       (services c
          ++ [mkService (previewName name version) EmptyString
                (Some (<[k := previewName val version]> labels))
                (Some (<[k := previewName val version]> {[ k := val ]}))])
       (deployments c) (virtualServices c)).
Proof.
  intros (Hcfg & Hlist & Hcreate & _ & _) Hfind Hname Hlabels Hsel Hfresh.
  unfold createService. rewrite (newK8sClient_ok env Hcfg).
  unfold bind, lift, deref, listServices. rewrite Hlist, Hfind, Hsel.
  unfold rangeSelector, mapRange. rewrite map_to_list_singleton.
  cbn [foldl fst snd key value]. rewrite Hlabels. cbn [mapAssign].
  unfold serviceCreate. cbn [svc_name]. rewrite Hname, Hcreate.
  by rewrite bool_decide_eq_false_2.
Qed.

Lemma createDeploy_match (env : Env) (selector : deploySelector) (version : string)
    (c : Cluster) (d : Deployment) (ls : LabelSelector) (ml : gmap string string) :
  workloadRegistryAnswers env →
  findDeploy selector (deployments c) = Ok d →
  dep_selector d = Some ls →
  matchLabels ls = Some ml →
  previewName (dep_name d) version ∉ dep_name <$> deployments c →
  createDeploy env selector version c
  = (Ok tt,
     mkCluster (services c)
       (deployments c
          ++ [mkDeployment (previewName (dep_name d) version) EmptyString
                (Some (mkLabelSelector
                         (Some (<[key selector
                                  := previewName (value selector) version]> ml))))
                (match mapLookup (dep_templateLabels d) (key selector) with
                 | Some _ =>
                     insert (key selector) (previewName (value selector) version)
                       <$> dep_templateLabels d
                 | None => dep_templateLabels d
                 end)])
       (virtualServices c)).
Proof.
  intros (Hcfg & _ & _ & Hlist & Hcreate) Hfind Hls Hml Hfresh.
  unfold createDeploy. rewrite (newK8sClient_ok env Hcfg).
  unfold bind, lift, deref, listDeployments. rewrite Hlist, Hfind, Hls, Hml.
  cbn [mapAssign]. unfold deploymentCreate.
  destruct (dep_templateLabels d) as [g|]; cbn [mapLookup mapAssign fmap option_fmap option_map].
  - destruct (g !! key selector); cbn [dep_name];
      rewrite Hcreate, bool_decide_eq_false_2 by done; done.
  - cbn [dep_name]. rewrite Hcreate, bool_decide_eq_false_2 by done. done.
Qed.

Lemma createGateway_fresh (env : Env) (url gateway o v : string) (c : Cluster) :
  routingRegistryAnswers env →
  existsb (sameObject istioNamespace (previewGatewayVirtualServiceName o v))
    (virtualServices c) = false →
  createGatewayVirtualService env url gateway o v c
  = (Ok tt,
     mkCluster (services c) (deployments c)
       (virtualServices c ++ [serverView env (gatewayVirtualService url gateway o v)])).
Proof.
  intros (Hcfg & _ & Hcreate & _) Hfresh. unfold createGatewayVirtualService.
  rewrite (newIstioClient_ok env Hcfg).
  rewrite bool_decide_eq_false_2 by (intros H; by apply H).
  unfold bind, lift, deref, virtualServiceCreate. cbn [vs_name gatewayVirtualService].
  by rewrite Hcreate, Hfresh.
Qed.

(** X17. The first preview of an origin, end to end.  When both registries
    answer, the origin service (name without the reserved prefix) carries a
    label map and a one-entry selector, a Deployment matches that entry, no
    table exists for the origin and the four new names are free, the
    operation succeeds and adds exactly four objects: the Service clone, the
    Deployment clone, the table holding the preview route before the default
    route, and the gateway routing object. *)
Theorem first_preview_creates_four_objects (env : Env) (cmd : cmdCreate) (c : Cluster)
    (origin : Service) (labels : gmap string string) (k val : string)
    (d : Deployment) (ls : LabelSelector) (ml : gmap string string) :
  workloadRegistryAnswers env →
  routingRegistryAnswers env →
  GoStrings.HasPrefix (originService cmd) previewPrefixName = false →
  findService (originService cmd) (services c) = origin →
  svc_name origin = originService cmd →
  svc_labels origin = Some labels →
  svc_selector origin = Some {[ k := val ]} →
  previewName (originService cmd) (previewVersion cmd) ∉ svc_name <$> services c →
  findDeploy (mkDeploySelector k val) (deployments c) = Ok d →
  dep_selector d = Some ls →
  matchLabels ls = Some ml →
  previewName (dep_name d) (previewVersion cmd) ∉ dep_name <$> deployments c →
  locateBase (serviceHost (originService cmd)) (virtualServices c) = None →
  existsb (sameObject istioNamespace (previewVirtualServiceName (originService cmd)))
    (virtualServices c) = false →
  existsb (sameObject istioNamespace
             (previewGatewayVirtualServiceName (originService cmd) (previewVersion cmd)))
    (virtualServices c) = false →
  cmdCreate_RunE env cmd c
  = (Ok tt,
     mkCluster
       (services c
          ++ [mkService (previewName (originService cmd) (previewVersion cmd))
                EmptyString
                (Some (<[k := previewName val (previewVersion cmd)]> labels))
                (Some (<[k := previewName val (previewVersion cmd)]> {[ k := val ]}))])
       (deployments c
          ++ [mkDeployment (previewName (dep_name d) (previewVersion cmd)) EmptyString
                (Some (mkLabelSelector
                         (Some (<[k := previewName val (previewVersion cmd)]> ml))))
                (match mapLookup (dep_templateLabels d) k with
                 | Some _ =>
                     insert k (previewName val (previewVersion cmd))
                       <$> dep_templateLabels d
                 | None => dep_templateLabels d
                 end)])
       (virtualServices c
          ++ [serverView env
                (restamped (sidecarBase (originService cmd))
                   [previewRoute (originService cmd) (previewVersion cmd);
                    defaultRoute (originService cmd)]);
              serverView env
                (gatewayVirtualService (previewURL cmd) (previewGateway cmd)
                   (originService cmd) (previewVersion cmd))])).
Proof.
  intros Hwork Hroute Ho Hfind Hname Hlabels Hsel Hsvc Hdep Hls Hml Hdfresh
    Hloc Htable Hgateway.
  unfold cmdCreate_RunE, bind at 1.
  rewrite (createService_single_selector env _ _ c origin labels k val
             Hwork Hfind Hname Hlabels Hsel Hsvc).
  unfold bind at 1.
  rewrite (createDeploy_match env (mkDeploySelector k val) _ _ d ls ml Hwork);
    [|done..].
  unfold bind at 1. rewrite first_composition; [|done..].
  unfold bind at 1. cbn [services deployments virtualServices].
  rewrite createGateway_fresh;
    [cbn [services deployments virtualServices]; by rewrite <- app_assoc | done |].
  cbn [virtualServices]. rewrite existsb_app, Hgateway. cbn [existsb orb].
  rewrite orb_false_r. unfold sameObject.
  cbn [vs_name vs_namespace serverView restamped sidecarBase].
  rewrite (bool_decide_eq_false_2 (previewVirtualServiceName _ = _));
    [by rewrite andb_false_r|].
  intros H.
  by apply (table_name_is_not_gateway_name (originService cmd) (previewVersion cmd)).
Qed.

Lemma first_preview_creates_four_objects_witness :
  ∃ c',
    cmdCreate_RunE quietEnv (mkCmdCreate "checkout" "42" "my-gateway" "pr42.example.com")
      (mkCluster
         [mkService "checkout" "7" (Some {[ "app" := "checkout" ]})
            (Some {[ "app" := "checkout" ]})]
         [mkDeployment "checkout" "3"
            (Some (mkLabelSelector (Some {[ "app" := "checkout" ]})))
            (Some {[ "app" := "checkout" ]})]
         [])
    = (Ok tt, c')
    ∧ svc_name <$> services c' = ["checkout"; "pr42-checkout"]
    ∧ dep_name <$> deployments c' = ["checkout"; "pr42-checkout"]
    ∧ vs_name <$> virtualServices c'
      = ["prcheckout-virtual-service"; "pr42-checkout-gateway-virtual-service"].
Proof.
  eexists. split.
  - apply (first_preview_creates_four_objects quietEnv
             (mkCmdCreate "checkout" "42" "my-gateway" "pr42.example.com") _
             (mkService "checkout" "7" (Some {[ "app" := "checkout" ]})
                (Some {[ "app" := "checkout" ]}))
             {[ "app" := "checkout" ]} "app" "checkout"
             (mkDeployment "checkout" "3"
                (Some (mkLabelSelector (Some {[ "app" := "checkout" ]})))
                (Some {[ "app" := "checkout" ]}))
             (mkLabelSelector (Some {[ "app" := "checkout" ]}))
             {[ "app" := "checkout" ]}).
    + repeat split; reflexivity.
    + repeat split; reflexivity.
    + reflexivity.
    + reflexivity.
    + reflexivity.
    + reflexivity.
    + reflexivity.
    + vm_compute. intros H.
      repeat (apply elem_of_cons in H as [H|H]; [discriminate H|]).
      by apply elem_of_nil in H.
    + reflexivity.
    + reflexivity.
    + reflexivity.
    + vm_compute. intros H.
      repeat (apply elem_of_cons in H as [H|H]; [discriminate H|]).
      by apply elem_of_nil in H.
    + reflexivity.
    + reflexivity.
    + reflexivity.
  - split; [reflexivity|]. split; reflexivity.
Defined.
